(** * Instrumentation and memoization layer over a Redis store

    Shallow embedding of [0x02-redis_basic/exercise.py] (the decorators
    [count_calls] and [call_history], the class [Cache], the function
    [replay]) and of [0x02-redis_basic/web.py] (the decorator
    [cache_and_count_access] and [get_page]).

    The Redis server is an external collaborator of the program.  It is
    modelled as a finite map from keys to entries, with a clock for
    expiry; its commands are total functions that either change the
    database or answer with an error reply.  Python code is modelled in a
    state-and-exception monad: an exception leaves every effect that
    happened before it in place. *)

From Stdlib Require Import ZArith NArith Ascii String DecimalString DecimalPos DecimalZ.
From stdpp Require Import base option list gmap strings.

Local Open Scope string_scope.
Local Open Scope list_scope.
Local Open Scope Z_scope.

(** ** Python values *)

(** A text ([str]) is carried as its UTF-8 bytes, a [float] as its
    binary64 bit pattern: the program never computes on either. *)
#[local] Set Warnings "-register-all".
Inductive PyVal : Type :=
  | PyNone
  | PyStr (s : string)
  | PyBytes (b : string)
  | PyInt (z : Z)
  | PyFloat (bits : N)
  | PyTuple (items : list PyVal).

Inductive exn : Type :=
  | DataError            (* redis-py: value of a type it cannot encode *)
  | WrongType            (* redis reply: WRONGTYPE *)
  | NotAnInteger         (* redis reply: value is not an integer *)
  | InvalidExpire        (* redis reply: invalid expire time *)
  | UnicodeDecodeError
  | SyntaxError          (* eval of a malformed text *)
  | NameError (name : string) (* a name that nothing binds *)
  | ConnectionError (errno : N) (* failure of the slow fetch *)
  | OtherError (msg : string).

Inductive result (A : Type) : Type :=
  | Return (a : A)
  | Raise (e : exn).
Arguments Return {A} a.
Arguments Raise {A} e.

(** ** The state-and-exception monad *)

Definition M (S A : Type) : Type := S -> S * result A.

Definition ret {S A} (a : A) : M S A := fun s => (s, Return a).
Definition raise {S A} (e : exn) : M S A := fun s => (s, Raise e).
Definition bind {S A B} (m : M S A) (k : A -> M S B) : M S B :=
  fun s => match m s with
           | (s1, Return a) => k a s1
           | (s1, Raise e) => (s1, Raise e)
           end.

Notation "'let!' x ':=' m 'in' k" := (bind m (fun x => k))
  (at level 10, x pattern, m at level 100, k at level 200).
Notation "'do!' m 'in' k" := (bind m (fun _ => k))
  (at level 10, m at level 100, k at level 200).

(** ** Decimal text of an integer: [str(n)] and the strict parser of Redis *)

Definition str_int (z : Z) : string := NilZero.string_of_int (Z.to_int z).

(** Redis accepts only the canonical decimal form (no sign [+], no
    leading zero, no blank). *)
Definition parse_int (b : string) : option Z :=
  match NilZero.int_of_string b with
  | Some i => let z := Z.of_int i in
              if String.eqb (str_int z) b then Some z else None
  | None => None
  end.

(** ** UTF-8 *)

Definition in_range (lo hi c : N) : bool := (lo <=? c)%N && (c <=? hi)%N.
Definition cont (c : N) : bool := in_range 128 191 c.

(** Well-formed byte sequences, Unicode table 3-7 (the strict decoder). *)
Fixpoint utf8_ok (fuel : nat) (l : list N) : bool :=
  match fuel with
  | O => false
  | S fuel =>
    match l with
    | [] => true
    | c0 :: r0 =>
      if (c0 <=? 127)%N then utf8_ok fuel r0
      else match r0 with
      | [] => false
      | c1 :: r1 =>
        if in_range 194 223 c0 then cont c1 && utf8_ok fuel r1
        else match r1 with
        | [] => false
        | c2 :: r2 =>
          if (c0 =? 224)%N then in_range 160 191 c1 && cont c2 && utf8_ok fuel r2
          else if in_range 225 236 c0 || in_range 238 239 c0
               then cont c1 && cont c2 && utf8_ok fuel r2
          else if (c0 =? 237)%N then in_range 128 159 c1 && cont c2 && utf8_ok fuel r2
          else match r2 with
          | [] => false
          | c3 :: r3 =>
            if (c0 =? 240)%N
            then in_range 144 191 c1 && cont c2 && cont c3 && utf8_ok fuel r3
            else if in_range 241 243 c0
            then cont c1 && cont c2 && cont c3 && utf8_ok fuel r3
            else if (c0 =? 244)%N
            then in_range 128 143 c1 && cont c2 && cont c3 && utf8_ok fuel r3
            else false
          end
        end
      end
    end
  end.

Fixpoint codes (b : string) : list N :=
  match b with
  | EmptyString => []
  | String a r => N_of_ascii a :: codes r
  end.

Definition utf8_valid (b : string) : bool :=
  utf8_ok (S (String.length b)) (codes b).

(** [b.decode("utf-8")] *)
Definition decode_utf8 (b : string) : result string :=
  if utf8_valid b then Return b else Raise UnicodeDecodeError.

(** ** The Redis server *)

Inductive rval : Type :=
  | RStr (b : string)
  | RList (l : list string).

Record entry : Type := Entry { value : rval; expire_at : option N }.

Record Redis : Type := MkRedis { clock : N; db : gmap string entry }.

(** An entry has expired once the clock is past its expiry time. *)
Definition expired (now : N) (e : entry) : bool :=
  match expire_at e with
  | Some t => (t <? now)%N
  | None => false
  end.

(** What a command sees under a key: an expired entry is absent. *)
Definition live (r : Redis) (k : string) : option entry :=
  match db r !! k with
  | Some e => if expired (clock r) e then None else Some e
  | None => None
  end.

Definition put (k : string) (e : entry) (r : Redis) : Redis :=
  MkRedis (clock r) (<[k := e]> (db r)).

(** Time passing by [d] units. *)
Definition elapse (d : N) (r : Redis) : Redis := MkRedis (clock r + d) (db r).

Definition FLUSHDB : M Redis unit :=
  fun r => (MkRedis (clock r) ∅, Return tt).

Definition GET (k : string) : M Redis (option string) :=
  fun r => match live r k with
           | None => (r, Return None)
           | Some (Entry (RStr b) _) => (r, Return (Some b))
           | Some (Entry (RList _) _) => (r, Raise WrongType)
           end.

Definition SET (k b : string) : M Redis unit :=
  fun r => (put k (Entry (RStr b) None) r, Return tt).

Definition SETEX (k : string) (ttl : Z) (b : string) : M Redis unit :=
  fun r => if ttl <=? 0 then (r, Raise InvalidExpire)
           else (put k (Entry (RStr b) (Some (clock r + Z.to_N ttl)%N)) r, Return tt).

(** The counter is created at 1 when the key is absent; an existing
    counter keeps its time to live.  The integer range of the server is
    not modelled: the reply is an integer, as in the store capability
    [incr(key) -> int]. *)
Definition INCR (k : string) : M Redis Z :=
  fun r => match live r k with
           | None => (put k (Entry (RStr (str_int 1)) None) r, Return 1)
           | Some (Entry (RStr b) t) =>
               match parse_int b with
               | Some n => (put k (Entry (RStr (str_int (n + 1))) t) r, Return (n + 1))
               | None => (r, Raise NotAnInteger)
               end
           | Some (Entry (RList _) _) => (r, Raise WrongType)
           end.

Definition RPUSH (k b : string) : M Redis Z :=
  fun r => match live r k with
           | None => (put k (Entry (RList [b]) None) r, Return 1)
           | Some (Entry (RList l) t) =>
               (put k (Entry (RList (l ++ [b])) t) r, Return (Z.of_nat (length l) + 1))
           | Some (Entry (RStr _) _) => (r, Raise WrongType)
           end.

(** [LRANGE k 0 -1]: the whole list. *)
Definition LRANGE_all (k : string) : M Redis (list string) :=
  fun r => match live r k with
           | None => (r, Return [])
           | Some (Entry (RList l) _) => (r, Return l)
           | Some (Entry (RStr _) _) => (r, Raise WrongType)
           end.

(** ** The Python side of [exercise.py] *)

(** The interpreter state the module acts on: the server behind
    [self._redis] and the lines printed so far. *)
Record Py : Type := MkPy { redis : Redis; stdout : list string }.

Definition on_redis {A} (c : M Redis A) : M Py A :=
  fun s => match c (redis s) with
           | (r, a) => (MkPy r (stdout s), a)
           end.

Definition print (line : string) : M Py unit :=
  fun s => (MkPy (redis s) (stdout s ++ [line]), Return tt).

(** Builtins of Python the module calls and does not define.  [py_str]
    is [str], [py_eval] is [eval] (it runs the text it is given, so it
    may do anything), [py_int] is [int] on bytes, [repr_float] is [repr]
    on a float. *)
Class Builtins : Type := {
  repr_float : N -> string;
  py_str : PyVal -> string;
  py_eval : string -> M Py PyVal;
  py_int : string -> result Z
}.

(** What redis-py sends for a value: bytes as they are, a text as
    UTF-8, a number as its decimal text; anything else is refused. *)
Definition encode `{Builtins} (v : PyVal) : option string :=
  match v with
  | PyBytes b => Some b
  | PyStr s => Some s
  | PyInt z => Some (str_int z)
  | PyFloat f => Some (repr_float f)
  | PyNone | PyTuple _ => None
  end.

Definition encoded `{Builtins} (v : PyVal) : M Py string :=
  match encode v with
  | Some b => ret b
  | None => raise DataError
  end.

(** The client [redis.Redis()]: replies are bytes. *)
Definition client_flushdb : M Py unit := on_redis FLUSHDB.
Definition client_incr (k : string) : M Py Z := on_redis (INCR k).
Definition client_get (k : string) : M Py (option string) := on_redis (GET k).
Definition client_set `{Builtins} (k : string) (v : PyVal) : M Py unit :=
  let! b := encoded v in on_redis (SET k b).
Definition client_rpush `{Builtins} (k : string) (v : PyVal) : M Py Z :=
  let! b := encoded v in on_redis (RPUSH k b).
Definition client_lrange_all (k : string) : M Py (list string) :=
  on_redis (LRANGE_all k).

(** *** The decorators *)

(** A call: the positional arguments after [self] and the keyword
    arguments. *)
Record Call : Type := MkCall { args : list PyVal; kwargs : list (string * PyVal) }.

(** [count_calls(method)]; [qualname] is [method.__qualname__]. *)
Definition count_calls {A R} (qualname : string) (method : A -> M Py R) : A -> M Py R :=
  fun a =>
    let key := qualname in
    do! client_incr key in
    method a.

(** [call_history(method)] *)
Definition call_history `{Builtins} (qualname : string) (method : Call -> M Py PyVal)
  : Call -> M Py PyVal :=
  fun c =>
    let key_inputs := qualname +:+ ":inputs" in
    let key_outputs := qualname +:+ ":outputs" in
    do! client_rpush key_inputs (PyStr (py_str (PyTuple (args c)))) in
    let! output := method c in
    do! client_rpush key_outputs output in
    ret output.

(** *** [uuid.uuid4] *)

Definition hex_digit (d : N) : ascii :=
  match d with
  | 0 => "0" | 1 => "1" | 2 => "2" | 3 => "3" | 4 => "4" | 5 => "5"
  | 6 => "6" | 7 => "7" | 8 => "8" | 9 => "9" | 10 => "a" | 11 => "b"
  | 12 => "c" | 13 => "d" | 14 => "e" | _ => "f"
  end%N%char.

(** The [k] low hexadecimal digits of [n], most significant first. *)
Fixpoint hex_digits (k : nat) (n : N) : string :=
  match k with
  | O => ""
  | S k' => String (hex_digit (N.land (N.shiftr n (4 * N.of_nat k')) 15)) (hex_digits k' n)
  end.

(** The 128 bits of a version 4 UUID made from 16 random bytes. *)
Definition uuid4 (random : N) : N :=
  let i := N.land random (N.ones 128) in
  let i := N.lor (N.ldiff i (N.shiftl 49152 48)) (N.shiftl 32768 48) in
  N.lor (N.ldiff i (N.shiftl 61440 64)) (N.shiftl 4 76).

Definition str_uuid (u : N) : string :=
  let hex := hex_digits 32 u in
  substring 0 8 hex +:+ "-" +:+ substring 8 4 hex +:+ "-" +:+ substring 12 4 hex
    +:+ "-" +:+ substring 16 4 hex +:+ "-" +:+ substring 20 12 hex.

(** *** class [Cache] *)

(** [Cache.__init__] *)
Definition Cache_init : M Py unit := client_flushdb.

(** The bytes [os.urandom] hands to [uuid4] are an argument. *)
Record StoreCall : Type := MkStoreCall { random : N; data : PyVal }.

Definition store_body `{Builtins} (c : StoreCall) : M Py string :=
  let key := str_uuid (uuid4 (random c)) in
  do! client_set key (data c) in
  ret key.

(** [@count_calls def store] *)
Definition store `{Builtins} : StoreCall -> M Py string :=
  count_calls "Cache.store" store_body.

Definition get (key : string) (fn : option (string -> M Py PyVal)) : M Py PyVal :=
  let! data := client_get key in
  match data with
  | None => ret PyNone
  | Some d =>
      match fn with
      | Some f => f d
      | None => ret (PyBytes d)
      end
  end.

Definition lift {S A} (r : result A) : M S A := fun s => (s, r).

Definition get_str (key : string) : M Py PyVal :=
  get key (Some (fun d => let! t := lift (decode_utf8 d) in ret (PyStr t))).

Definition get_int `{Builtins} (key : string) : M Py PyVal :=
  get key (Some (fun d => let! z := lift (py_int d) in ret (PyInt z))).

(** *** [replay] *)

(** [[eval(args) for args in ...]] *)
Fixpoint eval_each `{Builtins} (l : list string) : M Py (list PyVal) :=
  match l with
  | [] => ret []
  | x :: l' =>
      let! v := py_eval x in
      let! vs := eval_each l' in
      ret (v :: vs)
  end.

Definition report_line `{Builtins} (qualname : string) (a : PyVal) (output : string) : string :=
  qualname +:+ py_str a +:+ " -> " +:+ output.

(** [for args, output in zip(inputs, outputs): print(...)] *)
Fixpoint replay_loop `{Builtins} (qualname : string) (pairs : list (PyVal * string))
  : M Py unit :=
  match pairs with
  | [] => ret tt
  | (a, output) :: rest =>
      let! text := lift (decode_utf8 output) in
      do! print (report_line qualname a text) in
      replay_loop qualname rest
  end.

Definition header (qualname : string) (n : nat) : string :=
  qualname +:+ " was called " +:+ str_int (Z.of_nat n) +:+ " times:".

(** A [Cache] object is told by nothing but its connection [_redis],
    which is the connection to the server of the state. *)
Inductive CacheObject : Type := CacheOnServer.

(** What the global name [cache] of the module [exercise] is bound to.
    The module binds [redis], [uuid], [Union], [Callable], [wraps],
    [count_calls], [call_history], [Cache] and [replay], and no name
    [cache]: the name is bound only when a caller of the module sets
    it. *)
Definition module_cache : option CacheObject := None.

(** Reading the global name [cache]. *)
Definition load_cache (cache : option CacheObject) : M Py CacheObject :=
  match cache with
  | Some c => ret c
  | None => raise (NameError "cache")
  end.

(** [replay(func)]; [qualname] is [func.__qualname__], [cache] is what
    the global name [cache] is bound to when the function runs. *)
Definition replay `{Builtins} (cache : option CacheObject) (qualname : string) : M Py unit :=
  let key_inputs := qualname +:+ ":inputs" in
  let key_outputs := qualname +:+ ":outputs" in
  let! c := load_cache cache in
  let! logged := client_lrange_all key_inputs in
  let! inputs := eval_each logged in
  let! c' := load_cache cache in
  let! outputs := client_lrange_all key_outputs in
  do! print (header qualname (length inputs)) in
  replay_loop qualname (zip inputs outputs).

(** ** [web.py] *)

(** What [requests.get(url).text] gives: a text or a failure, after
    some time. *)
Record Response : Type := MkResponse { took : N; text : result string }.

(** The network the slow fetch talks to. *)
Class Internet : Type := {
  World : Type;
  requests_get : string -> World -> World * Response
}.

(** The state [web.py] acts on: the server behind [redis_client], the
    network, and (for the proofs only) the arguments of every run of the
    body of [get_page], in order. *)
Record Web `{Internet} : Type :=
  MkWeb { redis_client : Redis; world : World; fetched : list string }.
Arguments MkWeb {_} _ _ _.

Definition on_client `{Internet} {A} (c : M Redis A) : M Web A :=
  fun s => match c (redis_client s) with
           | (r, a) => (MkWeb r (world s) (fetched s), a)
           end.

(** The client [redis.StrictRedis(..., decode_responses=True)]: replies
    are decoded to text. *)
Definition web_incr `{Internet} (k : string) : M Web Z := on_client (INCR k).

Definition web_get `{Internet} (k : string) : M Web (option string) :=
  let! reply := on_client (GET k) in
  match reply with
  | None => ret None
  | Some b => let! t := lift (decode_utf8 b) in ret (Some t)
  end.

Definition web_setex `{Internet} (k : string) (ttl : Z) (v : string) : M Web unit :=
  on_client (SETEX k ttl v).

(** Truth value of [None] or a text. *)
Definition truthy (v : option string) : bool :=
  match v with
  | None => false
  | Some t => negb (String.eqb t "")
  end.

(** [cache_and_count_access(func)] *)
Definition cache_and_count_access `{Internet} (func : string -> M Web string)
  : string -> M Web string :=
  fun url =>
    let count_key := "count:" +:+ url in
    let! current_count := web_incr count_key in
    let cache_key := "cache:" +:+ url in
    let! cached_result := web_get cache_key in
    let miss :=
      let! result := func url in
      do! web_setex cache_key 10 result in
      ret result in
    match cached_result with
    | Some t => if truthy cached_result then ret t else miss
    | None => miss
    end.

(** The body of [get_page]; the fetch takes [took] units of time. *)
Definition get_page_body `{Internet} (url : string) : M Web string :=
  fun s => match requests_get url (world s) with
           | (w, response) =>
               (MkWeb (elapse (took response) (redis_client s)) w (fetched s ++ [url]),
                text response)
           end.

(** [@cache_and_count_access def get_page] *)
Definition get_page `{Internet} : string -> M Web string :=
  cache_and_count_access get_page_body.

(** Time passing between two calls. *)
Definition wait `{Internet} (d : N) (s : Web) : Web :=
  MkWeb (elapse d (redis_client s)) (world s) (fetched s).

(** ** Reading the store in the statements *)

(** The integer a counter key stands for: 0 when the key is absent. *)
Definition counter (r : Redis) (k : string) : option Z :=
  match live r k with
  | None => Some 0
  | Some (Entry (RStr b) _) => parse_int b
  | Some (Entry (RList _) _) => None
  end.

(** The list under a key: empty when the key is absent. *)
Definition log (r : Redis) (k : string) : option (list string) :=
  match live r k with
  | None => Some []
  | Some (Entry (RList l) _) => Some l
  | Some (Entry (RStr _) _) => None
  end.

(** Running calls one after the other, time passing before each; a
    call that raises does not stop the caller from calling again. *)
Fixpoint run_calls {A R} (f : A -> M Py R) (calls : list (N * A)) (s : Py) : Py :=
  match calls with
  | [] => s
  | (d, a) :: rest =>
      run_calls f rest (f a (MkPy (elapse d (redis s)) (stdout s))).1
  end.

(** The same for calls that all return: the results, in order, or
    [None] as soon as a call raises. *)
Fixpoint run_returning {A R} (f : A -> M Py R) (calls : list (N * A)) (s : Py)
  : option (Py * list R) :=
  match calls with
  | [] => Some (s, [])
  | (d, a) :: rest =>
      match f a (MkPy (elapse d (redis s)) (stdout s)) with
      | (s1, Return out) =>
          match run_returning f rest s1 with
          | Some (s2, outs) => Some (s2, out :: outs)
          | None => None
          end
      | (_, Raise _) => None
      end
  end.

(** ** Stand-ins for running the model on examples *)

(** [repr] of the values the examples use. *)
Definition sample_repr (v : PyVal) : string :=
  match v with
  | PyNone => "None"
  | PyStr s => "'" +:+ s +:+ "'"
  | PyBytes b => "b'" +:+ b +:+ "'"
  | PyInt z => str_int z
  | PyFloat _ => "0.0"
  | PyTuple _ => "()"
  end.

Fixpoint sample_join (l : list string) : string :=
  match l with
  | [] => ""
  | [x] => x
  | x :: rest => x +:+ ", " +:+ sample_join rest
  end.

Definition sample_str (v : PyVal) : string :=
  match v with
  | PyStr s => s
  | PyTuple [x] => "(" +:+ sample_repr x +:+ ",)"
  | PyTuple l => "(" +:+ sample_join (map sample_repr l) +:+ ")"
  | _ => sample_repr v
  end.

(** [eval] on the few texts the examples log. *)
Definition sample_eval (x : string) : M Py PyVal :=
  if String.eqb x "(7,)" then ret (PyTuple [PyInt 7])
  else if String.eqb x "('foo',)" then ret (PyTuple [PyStr "foo"])
  else if String.eqb x "(1, 2)" then ret (PyTuple [PyInt 1; PyInt 2])
  else if String.eqb x "(inf,)" then raise (NameError "inf")
  else if String.eqb x "(7," then raise SyntaxError
  else raise (OtherError "text outside the samples").

Definition sample_builtins : Builtins :=
  {| repr_float := fun _ => "0.0";
     py_str := sample_str;
     py_eval := sample_eval;
     py_int := fun b => match parse_int b with
                        | Some z => Return z
                        | None => Raise (OtherError "ValueError")
                        end |}.

(** A site that answers at once with a page naming the address asked. *)
Definition echo_site : Internet :=
  {| World := nat;
     requests_get := fun url n =>
       (S n, MkResponse 3 (Return ("<html>" +:+ url +:+ "</html>"))) |}.

(** A site whose pages are empty. *)
Definition blank_site : Internet :=
  {| World := nat;
     requests_get := fun url n => (S n, MkResponse 3 (Return "")) |}.

(** No network. *)
Definition offline : Internet :=
  {| World := nat;
     requests_get := fun url n => (S n, MkResponse 1 (Raise (ConnectionError 111))) |}.

Definition empty_redis : Redis := MkRedis 0 ∅.
Definition fresh_py : Py := MkPy empty_redis [].
Definition fresh_web `{Internet} (w : World) : Web := MkWeb empty_redis w [].

(** A method that echoes its first argument, and one that always fails. *)
Definition echo_method (c : Call) : M Py PyVal :=
  match args c with
  | v :: _ => ret v
  | [] => ret (PyInt 0)
  end.

Definition failing_method (c : Call) : M Py PyVal := raise (OtherError "boom").

(** ** Notions the statements use *)

(** The state of a counter that was absent and then incremented [n]
    times: absent, or the decimal text of [n] with no time to live. *)
Definition counted (r : Redis) (k : string) (n : nat) : Prop :=
  (n = 0%nat /\ live r k = None)
  \/ db r !! k = Some (Entry (RStr (str_int (Z.of_nat n))) None).

(** The entry of a list that was absent and then pushed to: Redis keeps
    no empty list. *)
Definition log_entry (l : list string) : option entry :=
  match l with
  | [] => None
  | _ => Some (Entry (RList l) None)
  end.

Definition logged (r : Redis) (k : string) (l : list string) : Prop :=
  db r !! k = log_entry l.

(** The text [call_history] logs for a call. *)
Definition serialized `{Builtins} (c : Call) : string := py_str (PyTuple (args c)).

(** What the wrapper of [call_history] does once the input is logged. *)
Definition after_input `{Builtins} (qualname : string) (method : Call -> M Py PyVal)
    (c : Call) : M Py PyVal :=
  let! output := method c in
  do! client_rpush (qualname +:+ ":outputs") output in
  ret output.

Definition sample_calls : list (N * Call) :=
  [(1%N, MkCall [PyInt 7] []); (2%N, MkCall [PyStr "foo"] [])].

Definition sample_history : Py :=
  run_calls (call_history (H:=sample_builtins) "Cache.echo" echo_method) sample_calls fresh_py.

(** A store whose only entry ran out of time one unit ago. *)
Definition stale_py : Py :=
  MkPy (MkRedis 12 {[ "k" := Entry (RStr "old") (Some 11%N) ]}) [].

(** The operations of a [Cache] object, [get] with a coercion that
    only computes ([get_str] and [get_int] are of that kind). *)
Inductive CacheOp : Type :=
  | OpStore (c : StoreCall)
  | OpGet (key : string) (fn : option (string -> result PyVal)).

Definition cache_op `{Builtins} (op : CacheOp) : M Py PyVal :=
  match op with
  | OpStore c => let! key := store c in ret (PyStr key)
  | OpGet key fn => get key (option_map (fun f d => lift (f d)) fn)
  end.

(** Every key of the store is the counter of [store] or a UUID, and
    holds a string. *)
Definition only_cache_keys (r : Redis) : Prop :=
  forall k e, db r !! k = Some e ->
    (exists b, value e = RStr b) /\ (k = "Cache.store" \/ exists u, k = str_uuid u).

(** A text whose evaluation gives [v] and does nothing else. *)
Definition evaluates `{Builtins} (x : string) (v : PyVal) : Prop :=
  forall s : Py, py_eval x s = (s, Return v).

(** The state after one call of an address of the site whose pages are
    empty. *)
Definition blank_cached : @Web blank_site :=
  (@get_page blank_site "u" (@fresh_web blank_site 0%nat)).1.

(** The cache check misses: nothing live under the key, or the empty
    text. *)
Definition misses (r : Redis) (k : string) : Prop :=
  live r k = None \/ exists t, live r k = Some (Entry (RStr "") t).

(** One call of [get_page] that misses: the state it leaves and what
    it gives. *)
Definition after_miss `{Internet} (url : string) (s : Web) (e : entry) (w : World)
    (response : Response) : Web * result string :=
  let r := elapse (took response) (put ("count:" +:+ url) e (redis_client s)) in
  match text response with
  | Return page =>
      (MkWeb (put ("cache:" +:+ url) (Entry (RStr page) (Some (clock r + 10)%N)) r) w
         (fetched s ++ [url]),
       Return page)
  | Raise x => (MkWeb r w (fetched s ++ [url]), Raise x)
  end.

(** Two recorded calls, the second output being the byte 255. *)
Definition undecodable_history : Py :=
  MkPy (MkRedis 0 (<[ "f:outputs" := Entry (RList ["7"; String (ascii_of_N 255) ""]) None ]>
                     {[ "f:inputs" := Entry (RList ["(7,)"; "(1, 2)"]) None ]})) [].

(** Calls of [get_page] on one address, time passing before each. *)
Fixpoint run_pages `{Internet} (url : string) (waits : list N) (s : Web) : Web :=
  match waits with
  | [] => s
  | d :: rest => run_pages url rest (get_page url (wait d s)).1
  end.

(** The text of a UUID with its four hyphens taken out. *)
Definition unhyphen (t : string) : string :=
  substring 0 8 t +:+ substring 9 4 t +:+ substring 14 4 t +:+ substring 19 4 t
    +:+ substring 24 12 t.

(** Digit [k] of a number in base 16, counted from the low end. *)
Definition nibble (n : N) (k : nat) : N := N.land (N.shiftr n (4 * N.of_nat k)) 15.

(** ** Facts on decimal texts and key names *)

Lemma to_int_not_nil (z : Z) : Z.to_int z <> Decimal.Pos Decimal.Nil /\ Z.to_int z <> Decimal.Neg Decimal.Nil.
Proof.
  destruct z as [|p|p]; cbn; split; try discriminate.
  - intros [= E]. revert E. apply DecimalPos.Unsigned.to_uint_nonnil.
  - intros [= E]. revert E. apply DecimalPos.Unsigned.to_uint_nonnil.
Qed.

Lemma parse_str_int (z : Z) : parse_int (str_int z) = Some z.
Proof.
  unfold parse_int, str_int.
  destruct (to_int_not_nil z) as [Hp Hn].
  rewrite NilZero.isi by assumption.
  rewrite DecimalZ.of_to, String.eqb_refl. reflexivity.
Qed.

Lemma app_string_inj_l (q a b : string) : q +:+ a = q +:+ b -> a = b.
Proof. induction q as [|c q IH]; cbn; [auto | intros [= E]; auto]. Qed.

Lemma log_keys_differ (q : string) : q +:+ ":inputs" <> q +:+ ":outputs".
Proof. intros E. apply app_string_inj_l in E. discriminate. Qed.

Lemma web_keys_differ (url : string) : "count:" +:+ url <> "cache:" +:+ url.
Proof. cbn. discriminate. Qed.

(** ** Facts on the server *)

Lemma live_put_same (k : string) (e : entry) (r : Redis) :
  live (put k e r) k = if expired (clock r) e then None else Some e.
Proof. unfold live, put; cbn. by rewrite lookup_insert_eq. Qed.

Lemma live_put_other (k k' : string) (e : entry) (r : Redis) :
  k <> k' -> live (put k e r) k' = live r k'.
Proof. intros Hne. unfold live, put; cbn. by rewrite lookup_insert_ne. Qed.

Lemma live_no_ttl (r : Redis) (k : string) (v : rval) :
  db r !! k = Some (Entry v None) -> live r k = Some (Entry v None).
Proof. intros E. unfold live. by rewrite E. Qed.

Lemma expired_later (now d : N) (e : entry) :
  expired now e = true -> expired (now + d) e = true.
Proof.
  unfold expired. destruct (expire_at e) as [t|]; [|done].
  rewrite !N.ltb_lt. lia.
Qed.

Lemma live_elapse_absent (d : N) (r : Redis) (k : string) :
  live r k = None -> live (elapse d r) k = None.
Proof.
  unfold live, elapse; cbn. destruct (db r !! k) as [e|]; [|done].
  destruct (expired (clock r) e) eqn:E; [|done].
  intros _. by rewrite (expired_later _ _ _ E).
Qed.

Lemma live_absent_of_db (r : Redis) (k : string) :
  db r !! k = None -> live r k = None.
Proof. intros E. unfold live. by rewrite E. Qed.

(** [INCR] on a key that stands for [n] answers [n + 1] and leaves the
    key standing for [n + 1]. *)
Lemma INCR_spec (r : Redis) (k : string) (n : Z) :
  counter r k = Some n ->
  exists e, INCR k r = (put k e r, Return (n + 1))
            /\ value e = RStr (str_int (n + 1))
            /\ (live r k = None -> expire_at e = None)
            /\ counter (put k e r) k = Some (n + 1).
Proof.
  unfold counter, INCR. destruct (live r k) as [[[b|l] t]|] eqn:L.
  - intros P. rewrite P. eexists; repeat split; [done|].
    rewrite live_put_same.
    assert (expired (clock r) (Entry (RStr (str_int (n + 1))) t) = false) as ->.
    { unfold live in L. destruct (db r !! k) as [e0|]; [|done].
      destruct (expired (clock r) e0) eqn:X; [done|].
      injection L as ->. exact X. }
    apply parse_str_int.
  - discriminate.
  - intros [= <-]. eexists; repeat split.
    rewrite live_put_same. cbn [expired expire_at]. apply (parse_str_int 1).
Qed.

Lemma counted_counter (r : Redis) (k : string) (n : nat) :
  counted r k n -> counter r k = Some (Z.of_nat n).
Proof.
  intros [[-> L]|E]; unfold counter.
  - by rewrite L.
  - rewrite (live_no_ttl _ _ _ E). apply parse_str_int.
Qed.

Lemma counted_elapse (d : N) (r : Redis) (k : string) (n : nat) :
  counted r k n -> counted (elapse d r) k n.
Proof.
  intros [[-> L]|E]; [left|right]; [|exact E].
  split; [done|]. by apply live_elapse_absent.
Qed.

Lemma counted_INCR (r : Redis) (k : string) (n : nat) :
  counted r k n ->
  exists r1, INCR k r = (r1, Return (Z.of_nat (S n))) /\ counted r1 k (S n).
Proof.
  intros C. unfold INCR.
  destruct C as [[-> L]|E].
  - rewrite L. eexists; split; [done|]. right. cbn. by rewrite lookup_insert_eq.
  - rewrite (live_no_ttl _ _ _ E), parse_str_int.
    replace (Z.of_nat n + 1) with (Z.of_nat (S n)) by lia.
    eexists; split; [done|]. right. cbn. by rewrite lookup_insert_eq.
Qed.

(** ** The invocation counter *)

Lemma count_calls_unfold {A R} (q : string) (method : A -> M Py R) (a : A) (s : Py) (n : Z) :
  counter (redis s) q = Some n ->
  exists s1, client_incr q s = (s1, Return (n + 1))
             /\ counter (redis s1) q = Some (n + 1)
             /\ count_calls q method a s = method a s1.
Proof.
  intros C. destruct (INCR_spec _ _ _ C) as (e & E & _ & _ & C1).
  exists (MkPy (put q e (redis s)) (stdout s)).
  unfold count_calls, bind, client_incr, on_redis. rewrite E. done.
Qed.

Lemma count_calls_step {A R} (q : string) (method : A -> M Py R) (a : A) (s : Py) (n : nat) :
  (forall a s, db (redis (method a s).1) !! q = db (redis s) !! q) ->
  counted (redis s) q n ->
  counted (redis (count_calls q method a s).1) q (S n).
Proof.
  intros Hframe C. destruct (counted_INCR _ _ _ C) as (r1 & E & C1).
  unfold count_calls, bind, client_incr, on_redis. rewrite E.
  destruct C1 as [[[=] _]|D]. right.
  rewrite Hframe. exact D.
Qed.

Lemma run_count_calls {A R} (q : string) (method : A -> M Py R) (calls : list (N * A)) :
  (forall a s, db (redis (method a s).1) !! q = db (redis s) !! q) ->
  forall (s : Py) (n : nat),
    counted (redis s) q n ->
    counted (redis (run_calls (count_calls q method) calls s)) q (n + length calls).
Proof.
  intros Hframe. induction calls as [|[d a] rest IH]; intros s n C; cbn [run_calls length].
  - by rewrite Nat.add_0_r.
  - replace (n + S (length rest))%nat with (S n + length rest)%nat by lia.
    apply IH. apply count_calls_step; [exact Hframe|].
    cbn. by apply counted_elapse.
Qed.

(** C4.  An operation wrapped by [count_calls] whose key was absent has
    been counted [n] after [n] invocations, whatever each invocation
    did: returned or raised.  The wrapper increments first: on a counter
    standing at [n], it behaves as the wrapped operation started in the
    state where the counter already stands at [n + 1].  The wrapped
    operation is any operation that leaves the entry of its own counter
    alone. *)
Theorem count_calls_counts {A R} (qualname : string) (method : A -> M Py R)
    (calls : list (N * A)) (s0 : Py) :
  (forall a s, db (redis (method a s).1) !! qualname = db (redis s) !! qualname) ->
  live (redis s0) qualname = None ->
  counter (redis (run_calls (count_calls qualname method) calls s0)) qualname
    = Some (Z.of_nat (length calls))
  /\ (forall (a : A) (s : Py) (n : Z),
        counter (redis s) qualname = Some n ->
        exists s1, client_incr qualname s = (s1, Return (n + 1))
                   /\ counter (redis s1) qualname = Some (n + 1)
                   /\ count_calls qualname method a s = method a s1).
Proof.
  intros Hframe Habsent. split.
  - apply counted_counter.
    apply (run_count_calls qualname method calls Hframe s0 0%nat).
    left. done.
  - intros a s n. apply count_calls_unfold.
Qed.

(** Three invocations of an operation that always raises are counted. *)
Lemma count_calls_counts_witness :
  counter (redis (run_calls (count_calls "Cache.boom" failing_method)
                    [(0%N, MkCall [] []); (4%N, MkCall [PyInt 1] []); (1%N, MkCall [] [])]
                    fresh_py)) "Cache.boom" = Some 3.
Proof.
  apply (count_calls_counts "Cache.boom" failing_method
           [(0%N, MkCall [] []); (4%N, MkCall [PyInt 1] []); (1%N, MkCall [] [])] fresh_py).
  - intros a s. reflexivity.
  - reflexivity.
Defined.

(** ** The history recorder *)

Lemma logged_live (r : Redis) (k : string) (l : list string) :
  logged r k l -> live r k = log_entry l.
Proof.
  unfold logged. destruct l as [|x l]; cbn; intros E.
  - by apply live_absent_of_db.
  - by apply live_no_ttl.
Qed.

Lemma logged_log (r : Redis) (k : string) (l : list string) :
  logged r k l -> log r k = Some l.
Proof.
  intros L. unfold log. rewrite (logged_live _ _ _ L). by destruct l.
Qed.

Lemma logged_RPUSH (r : Redis) (k b : string) (l : list string) :
  logged r k l ->
  RPUSH k b r = (put k (Entry (RList (l ++ [b])) None) r, Return (Z.of_nat (length l) + 1)).
Proof.
  intros L. unfold RPUSH. rewrite (logged_live _ _ _ L). by destruct l.
Qed.

Lemma logged_put_same (r : Redis) (k : string) (l : list string) :
  l <> [] -> logged (put k (Entry (RList l) None) r) k l.
Proof.
  intros Hl. unfold logged, put; cbn. rewrite lookup_insert_eq. by destruct l.
Qed.

Lemma logged_put_other (r : Redis) (k k' : string) (e : entry) (l : list string) :
  k <> k' -> logged r k' l -> logged (put k e r) k' l.
Proof. intros Hne L. unfold logged, put; cbn. by rewrite lookup_insert_ne. Qed.

(** [log] decides what [RPUSH] does. *)
Lemma RPUSH_spec (r : Redis) (k b : string) (l : list string) :
  log r k = Some l ->
  exists e, RPUSH k b r = (put k e r, Return (Z.of_nat (length l) + 1))
            /\ log (put k e r) k = Some (l ++ [b]).
Proof.
  unfold log, RPUSH. destruct (live r k) as [[[b0|l0] t]|] eqn:L.
  - discriminate.
  - intros [= <-]. eexists; split; [done|].
    rewrite live_put_same.
    assert (expired (clock r) (Entry (RList (l0 ++ [b])) t) = false) as ->; [|done].
    unfold live in L. destruct (db r !! k) as [e0|]; [|done].
    destruct (expired (clock r) e0) eqn:X; [done|].
    injection L as ->. exact X.
  - intros [= <-]. eexists; split; [done|]. by rewrite live_put_same.
Qed.

Lemma log_put_other (r : Redis) (k k' : string) (e : entry) :
  k <> k' -> log (put k e r) k' = log r k'.
Proof. intros Hne. unfold log. by rewrite live_put_other. Qed.

Lemma client_rpush_eq `{Builtins} (k : string) (v : PyVal) (b : string) (s : Py) :
  encode v = Some b ->
  client_rpush k v s = (MkPy (RPUSH k b (redis s)).1 (stdout s), (RPUSH k b (redis s)).2).
Proof.
  intros E. unfold client_rpush, bind, encoded, on_redis. rewrite E. cbn.
  by destruct (RPUSH k b (redis s)).
Qed.

Lemma client_rpush_refused `{Builtins} (k : string) (v : PyVal) (s : Py) :
  encode v = None -> client_rpush k v s = (s, Raise DataError).
Proof. intros E. unfold client_rpush, bind, encoded. by rewrite E. Qed.

Section History.
Context `{Builtins}.
Variable qualname : string.
Variable method : Call -> M Py PyVal.

Let key_inputs := qualname +:+ ":inputs".
Let key_outputs := qualname +:+ ":outputs".

Lemma call_history_input (c : Call) (s : Py) (ins outs : list string) :
  log (redis s) key_inputs = Some ins ->
  log (redis s) key_outputs = Some outs ->
  exists s1, call_history qualname method c s = after_input qualname method c s1
             /\ log (redis s1) key_inputs = Some (ins ++ [serialized c])
             /\ log (redis s1) key_outputs = Some outs.
Proof.
  intros Li Lo. destruct (RPUSH_spec _ _ (serialized c) _ Li) as (e & E & L1).
  exists (MkPy (put key_inputs e (redis s)) (stdout s)). split; [|split].
  - unfold call_history, bind at 1.
    rewrite (client_rpush_eq _ _ (serialized c)) by done.
    fold key_inputs. rewrite E. reflexivity.
  - exact L1.
  - cbn. rewrite log_put_other; [exact Lo | apply log_keys_differ].
Qed.

Lemma call_history_output (c : Call) (s1 s2 : Py) (out : PyVal) (b : string)
    (outs : list string) :
  method c s1 = (s2, Return out) ->
  encode out = Some b ->
  log (redis s2) key_outputs = Some outs ->
  exists s3, after_input qualname method c s1 = (s3, Return out)
             /\ log (redis s3) key_outputs = Some (outs ++ [b])
             /\ log (redis s3) key_inputs = log (redis s2) key_inputs.
Proof.
  intros Em Eb Lo. destruct (RPUSH_spec _ _ b _ Lo) as (e & E & L1).
  exists (MkPy (put key_outputs e (redis s2)) (stdout s2)). split; [|split].
  - unfold after_input, bind at 1. rewrite Em.
    unfold bind at 1. rewrite (client_rpush_eq _ _ b) by done.
    fold key_outputs. rewrite E. reflexivity.
  - exact L1.
  - cbn. rewrite log_put_other; [done|].
    intros X. symmetry in X. by apply log_keys_differ in X.
Qed.

Lemma call_history_raises (c : Call) (s1 s2 : Py) (e : exn) :
  method c s1 = (s2, Raise e) -> after_input qualname method c s1 = (s2, Raise e).
Proof. intros Em. unfold after_input, bind. by rewrite Em. Qed.

Hypothesis method_frame : forall c s k,
  k = key_inputs \/ k = key_outputs ->
  db (redis (method c s).1) !! k = db (redis s) !! k.

Lemma call_history_step (c : Call) (s s' : Py) (out : PyVal) (ins bs : list string) :
  logged (redis s) key_inputs ins ->
  logged (redis s) key_outputs bs ->
  call_history qualname method c s = (s', Return out) ->
  exists b, encode out = Some b
            /\ logged (redis s') key_inputs (ins ++ [serialized c])
            /\ logged (redis s') key_outputs (bs ++ [b]).
Proof.
  intros Li Lo. unfold call_history, bind at 1.
  rewrite (client_rpush_eq _ _ (serialized c)) by done.
  fold key_inputs key_outputs.
  rewrite (logged_RPUSH _ _ (serialized c) _ Li). cbn [fst snd].
  set (s1 := MkPy _ _).
  assert (logged (redis s1) key_inputs (ins ++ [serialized c])) as Li1.
  { apply logged_put_same. by destruct ins. }
  assert (logged (redis s1) key_outputs bs) as Lo1.
  { apply logged_put_other; [apply log_keys_differ | exact Lo]. }
  unfold bind at 1.
  destruct (method c s1) as [s2 [o|e]] eqn:Em; [|discriminate].
  assert (logged (redis s2) key_inputs (ins ++ [serialized c])) as Li2.
  { unfold logged. replace s2 with (method c s1).1 by (by rewrite Em).
    rewrite method_frame; [exact Li1 | by left]. }
  assert (logged (redis s2) key_outputs bs) as Lo2.
  { unfold logged. replace s2 with (method c s1).1 by (by rewrite Em).
    rewrite method_frame; [exact Lo1 | by right]. }
  unfold bind at 1.
  destruct (encode o) as [b|] eqn:Eb;
    [|by rewrite (client_rpush_refused _ _ _ Eb)].
  rewrite (client_rpush_eq _ _ b) by done.
  rewrite (logged_RPUSH _ _ b _ Lo2). cbn [fst snd ret].
  intros [= <- <-]. exists b. split; [done|]. split.
  - apply logged_put_other; [|exact Li2].
    intros X. symmetry in X. by apply log_keys_differ in X.
  - apply logged_put_same. by destruct bs.
Qed.

Lemma run_call_history (calls : list (N * Call)) :
  forall (s s' : Py) (outs : list PyVal) (ins bs : list string),
    logged (redis s) key_inputs ins ->
    logged (redis s) key_outputs bs ->
    run_returning (call_history qualname method) calls s = Some (s', outs) ->
    exists bs', Forall2 (fun o b => encode o = Some b) outs bs'
                /\ logged (redis s') key_inputs (ins ++ map serialized calls.*2)
                /\ logged (redis s') key_outputs (bs ++ bs').
Proof.
  induction calls as [|[d c] rest IH]; intros s s' outs ins bs Li Lo; cbn [run_returning].
  - intros [= <- <-]. exists []. rewrite !app_nil_r. done.
  - destruct (call_history _ _ _ _) as [s1 [out|e]] eqn:Ec; [|discriminate].
    destruct (run_returning _ rest s1) as [[s2 outs']|] eqn:Er; [|discriminate].
    intros [= <- <-].
    destruct (call_history_step c (MkPy (elapse d (redis s)) (stdout s)) s1 out ins bs
                Li Lo Ec) as (b & Eb & Li1 & Lo1).
    destruct (IH _ _ _ _ _ Li1 Lo1 Er) as (bs' & F & Li2 & Lo2).
    exists (b :: bs'). split; [by constructor|].
    cbn [fmap list_fmap map]. rewrite <- !app_assoc in Li2, Lo2. done.
Qed.
End History.

(** C3.  Calls of an operation wrapped by [call_history] that all
    return, on a store where its two logs were absent: each log holds
    one entry per call; entry [i] of the inputs log is the text of the
    positional arguments of call [i], and entry [i] of the outputs log
    is the result call [i] returned, as the client encodes it.  On each
    call the wrapped operation starts in a state where the input is
    already logged and the outputs log has not moved; its result is
    pushed to the outputs log after it returned, and nothing is pushed
    when it raises.  The wrapped operation is any operation that leaves
    the entries of its two logs alone. *)
Theorem call_history_logs `{Builtins} (qualname : string) (method : Call -> M Py PyVal)
    (calls : list (N * Call)) (s0 s : Py) (outs : list PyVal) :
  (forall c s k,
     k = qualname +:+ ":inputs" \/ k = qualname +:+ ":outputs" ->
     db (redis (method c s).1) !! k = db (redis s) !! k) ->
  db (redis s0) !! (qualname +:+ ":inputs") = None ->
  db (redis s0) !! (qualname +:+ ":outputs") = None ->
  run_returning (call_history qualname method) calls s0 = Some (s, outs) ->
  (exists ins bs : list string,
     log (redis s) (qualname +:+ ":inputs") = Some ins
     /\ log (redis s) (qualname +:+ ":outputs") = Some bs
     /\ length ins = length calls
     /\ length bs = length calls
     /\ forall (i : nat) (d : N) (c : Call),
          calls !! i = Some (d, c) ->
          ins !! i = Some (serialized c)
          /\ exists out b, outs !! i = Some out /\ encode out = Some b /\ bs !! i = Some b)
  /\ (forall (c : Call) (s : Py) (ins bs : list string),
        log (redis s) (qualname +:+ ":inputs") = Some ins ->
        log (redis s) (qualname +:+ ":outputs") = Some bs ->
        exists s1, call_history qualname method c s = after_input qualname method c s1
                   /\ log (redis s1) (qualname +:+ ":inputs") = Some (ins ++ [serialized c])
                   /\ log (redis s1) (qualname +:+ ":outputs") = Some bs)
  /\ (forall (c : Call) (s1 s2 : Py) (out : PyVal) (b : string) (bs : list string),
        method c s1 = (s2, Return out) ->
        encode out = Some b ->
        log (redis s2) (qualname +:+ ":outputs") = Some bs ->
        exists s3, after_input qualname method c s1 = (s3, Return out)
                   /\ log (redis s3) (qualname +:+ ":outputs") = Some (bs ++ [b])
                   /\ log (redis s3) (qualname +:+ ":inputs")
                      = log (redis s2) (qualname +:+ ":inputs"))
  /\ (forall (c : Call) (s1 s2 : Py) (e : exn),
        method c s1 = (s2, Raise e) ->
        after_input qualname method c s1 = (s2, Raise e)).
Proof.
  intros Hframe Hin Hout Hrun. split; [|split; [|split]].
  - destruct (run_call_history qualname method Hframe calls s0 s outs [] [] Hin Hout Hrun)
      as (bs & F & Li & Lo).
    cbn [app] in Li, Lo.
    exists (map serialized calls.*2), bs.
    split; [by apply logged_log|]. split; [by apply logged_log|].
    pose proof (Forall2_length _ _ _ F) as Flen.
    assert (length outs = length calls) as Olen.
    { clear -Hrun. revert s0 s outs Hrun.
      induction calls as [|[d c] rest IH]; intros s0 s outs; cbn [run_returning].
      - by intros [= <- <-].
      - destruct (call_history _ _ _ _) as [s1 [out|e]]; [|discriminate].
        destruct (run_returning _ rest s1) as [[s2 outs']|] eqn:Er; [|discriminate].
        intros [= <- <-]. cbn. f_equal. by eapply IH. }
    split; [by rewrite length_map, length_fmap|].
    split; [lia|].
    intros i d c Hi. split.
    + rewrite list_lookup_fmap, list_lookup_fmap, Hi. done.
    + destruct (lookup_lt_is_Some_2 outs i) as [out Ho].
      { rewrite Olen. eapply lookup_lt_Some, Hi. }
      destruct (Forall2_lookup_l _ _ _ _ _ F Ho) as (b & Hb & Eb).
      by exists out, b.
  - intros c s' ins bs. apply call_history_input.
  - intros c s1 s2 out b bs. apply call_history_output.
  - intros c s1 s2 e. apply call_history_raises.
Qed.

(** Two calls of an echoing operation: both logs hold two entries. *)
Lemma call_history_logs_witness :
  exists ins bs : list string,
    log (redis sample_history) "Cache.echo:inputs" = Some ins
    /\ log (redis sample_history) "Cache.echo:outputs" = Some bs
    /\ length ins = 2%nat
    /\ length bs = 2%nat
    /\ forall (i : nat) (d : N) (c : Call),
         sample_calls !! i = Some (d, c) ->
         ins !! i = Some (serialized (H:=sample_builtins) c)
         /\ exists out b, [PyInt 7; PyStr "foo"] !! i = Some out
                          /\ encode (H:=sample_builtins) out = Some b /\ bs !! i = Some b.
Proof.
  apply (call_history_logs (H:=sample_builtins) "Cache.echo" echo_method sample_calls
           fresh_py sample_history [PyInt 7; PyStr "foo"]).
  - intros c s k _. unfold echo_method. by destruct (args c).
  - reflexivity.
  - reflexivity.
  - vm_compute. reflexivity.
Defined.

(** ** The keyed cache *)

Lemma hex_digit_not_C (d : N) : hex_digit d <> "C"%char.
Proof.
  destruct d as [|p]; [discriminate|].
  do 4 (try destruct p as [p|p|]); discriminate.
Qed.

Lemma str_uuid_head (u : N) : exists d rest, str_uuid u = String (hex_digit d) rest.
Proof. unfold str_uuid. cbn [hex_digits substring String.append]. eauto. Qed.

Lemma str_uuid_not_Cache (u : N) (rest : string) : str_uuid u <> String "C" rest.
Proof.
  destruct (str_uuid_head u) as (d & r & ->). intros [= E _].
  by apply hex_digit_not_C in E.
Qed.

Lemma on_redis_same {A} (c : M Redis A) (s : Py) (a : result A) :
  c (redis s) = (redis s, a) -> on_redis c s = (s, a).
Proof. intros E. unfold on_redis. rewrite E. by destruct s. Qed.

Lemma GET_absent (r : Redis) (k : string) :
  live r k = None -> GET k r = (r, Return None).
Proof. intros L. unfold GET. by rewrite L. Qed.

Lemma GET_string (r : Redis) (k b : string) (t : option N) :
  live r k = Some (Entry (RStr b) t) -> GET k r = (r, Return (Some b)).
Proof. intros L. unfold GET. by rewrite L. Qed.

Lemma live_expired (r : Redis) (k : string) (e : entry) :
  db r !! k = Some e -> expired (clock r) e = true -> live r k = None.
Proof. intros E X. unfold live. by rewrite E, X. Qed.

(** C8.  [Cache.get] on a key that is not in the store, or whose entry
    has expired, returns [None] and leaves the whole state as it was,
    whatever [fn] is: [fn] may raise or act on the state whenever it is
    called, so it was not called. *)
Theorem get_absent_is_None (key : string) (fn : option (string -> M Py PyVal)) (s : Py) :
  db (redis s) !! key = None
  \/ (exists e, db (redis s) !! key = Some e /\ expired (clock (redis s)) e = true) ->
  get key fn s = (s, Return PyNone).
Proof.
  intros Habsent.
  assert (live (redis s) key = None) as L.
  { destruct Habsent as [E|(e & E & X)].
    - by apply live_absent_of_db.
    - by eapply live_expired. }
  unfold get, bind, client_get.
  rewrite (on_redis_same _ _ _ (GET_absent _ _ L)). reflexivity.
Qed.

(** On an expired key, with a coercion that would raise. *)
Lemma get_absent_is_None_witness :
  get "k" (Some (fun _ => raise (OtherError "called"))) stale_py = (stale_py, Return PyNone).
Proof.
  apply get_absent_is_None. right.
  exists (Entry (RStr "old") (Some 11%N)). split; reflexivity.
Defined.

Lemma client_set_eq `{Builtins} (k : string) (v : PyVal) (b : string) (s : Py) :
  encode v = Some b ->
  client_set k v s = (MkPy (put k (Entry (RStr b) None) (redis s)) (stdout s), Return tt).
Proof. intros E. unfold client_set, bind, encoded. by rewrite E. Qed.

Lemma client_set_refused `{Builtins} (k : string) (v : PyVal) (s : Py) :
  encode v = None -> client_set k v s = (s, Raise DataError).
Proof. intros E. unfold client_set, bind, encoded. by rewrite E. Qed.

Lemma get_raw (key b : string) (t : option N) (s : Py) :
  live (redis s) key = Some (Entry (RStr b) t) ->
  get key None s = (s, Return (PyBytes b)).
Proof.
  intros L. unfold get, bind, client_get.
  rewrite (on_redis_same _ _ _ (GET_string _ _ _ _ L)). reflexivity.
Qed.

(** C2.  The round trip in raw form.  [store] of a text, bytes, an
    integer or a float returns the key made from the random bytes and
    leaves under it, with no time to live, the bytes the client sends
    for the value, unmodified; [get] of that key, at any later time,
    returns exactly those bytes, the raw form of the value.  They are
    the value itself when the value is bytes.  The counter of [store]
    is absent or an integer. *)
Theorem store_get_raw `{Builtins} (c : StoreCall) (s : Py) (b : string) (n : Z) (d : N) :
  encode (data c) = Some b ->
  counter (redis s) "Cache.store" = Some n ->
  exists s1 : Py,
    store c s = (s1, Return (str_uuid (uuid4 (random c))))
    /\ db (redis s1) !! str_uuid (uuid4 (random c)) = Some (Entry (RStr b) None)
    /\ get (str_uuid (uuid4 (random c))) None (MkPy (elapse d (redis s1)) (stdout s1))
       = (MkPy (elapse d (redis s1)) (stdout s1), Return (PyBytes b))
    /\ (forall x, data c = PyBytes x -> PyBytes b = data c).
Proof.
  intros Eb C.
  destruct (count_calls_unfold "Cache.store" store_body c s n C) as (s0 & _ & _ & E).
  unfold store. rewrite E. unfold store_body, bind.
  rewrite (client_set_eq _ _ b) by done.
  eexists. split; [reflexivity|]. split; [|split].
  - cbn. by rewrite lookup_insert_eq.
  - apply (get_raw _ b None). apply live_no_ttl. cbn. by rewrite lookup_insert_eq.
  - intros x Ex. rewrite Ex in Eb |- *. cbn in Eb. congruence.
Qed.

Lemma store_get_raw_witness :
  exists s1 : Py,
    store (H:=sample_builtins) (MkStoreCall 5 (PyInt 42)) fresh_py
      = (s1, Return "00000000-0000-4000-8000-000000000005")
    /\ db (redis s1) !! "00000000-0000-4000-8000-000000000005"
       = Some (Entry (RStr "42") None)
    /\ get "00000000-0000-4000-8000-000000000005" None
         (MkPy (elapse 100 (redis s1)) (stdout s1))
       = (MkPy (elapse 100 (redis s1)) (stdout s1), Return (PyBytes "42"))
    /\ (forall x, PyInt 42 = PyBytes x -> PyBytes "42" = PyInt 42).
Proof.
  apply (store_get_raw (H:=sample_builtins) (MkStoreCall 5 (PyInt 42)) fresh_py "42" 0 100).
  - reflexivity.
  - reflexivity.
Defined.

Lemma store_body_keeps_counter `{Builtins} (c : StoreCall) (s : Py) :
  db (redis (store_body c s).1) !! "Cache.store" = db (redis s) !! "Cache.store".
Proof.
  unfold store_body, bind.
  destruct (encode (data c)) as [b|] eqn:Eb.
  - rewrite (client_set_eq _ _ b) by done. cbn.
    rewrite lookup_insert_ne; [done|]. apply str_uuid_not_Cache.
  - by rewrite client_set_refused.
Qed.

(** The scenario of the counted operation: after [Cache()] and [n]
    calls of [store], whatever was stored, its counter stands at [n]. *)
Lemma store_calls_counted `{Builtins} (calls : list (N * StoreCall)) (s : Py) :
  counter (redis (run_calls store calls (Cache_init s).1)) "Cache.store"
  = Some (Z.of_nat (length calls)).
Proof.
  apply counted_counter.
  apply (run_count_calls "Cache.store" store_body calls store_body_keeps_counter _ 0%nat).
  left. done.
Qed.

Lemma only_cache_keys_put (r : Redis) (k b : string) (t : option N) :
  (k = "Cache.store" \/ exists u, k = str_uuid u) ->
  only_cache_keys r -> only_cache_keys (put k (Entry (RStr b) t) r).
Proof.
  intros Hk Inv k' e. unfold put; cbn.
  destruct (decide (k = k')) as [<-|Hne].
  - rewrite lookup_insert_eq. intros [= <-]. split; [by eexists | done].
  - rewrite lookup_insert_ne by done. apply Inv.
Qed.

Lemma only_cache_keys_INCR (r : Redis) :
  only_cache_keys r -> only_cache_keys (INCR "Cache.store" r).1.
Proof.
  intros Inv. unfold INCR.
  destruct (live r "Cache.store") as [[[b|l] t]|]; cbn [fst]; try done.
  - destruct (parse_int b); cbn [fst]; [|done].
    apply only_cache_keys_put; [by left | done].
  - apply only_cache_keys_put; [by left | done].
Qed.

Lemma only_cache_keys_store `{Builtins} (c : StoreCall) (s : Py) :
  only_cache_keys (redis s) -> only_cache_keys (redis (store c s).1).
Proof.
  intros Inv. unfold store, count_calls, bind at 1, client_incr, on_redis.
  pose proof (only_cache_keys_INCR _ Inv) as Inv1.
  destruct (INCR "Cache.store" (redis s)) as [r1 [z|e]]; cbn [fst] in *; [|done].
  unfold store_body, bind.
  destruct (encode (data c)) as [b|] eqn:Eb.
  - rewrite (client_set_eq _ _ b) by done. cbn.
    apply only_cache_keys_put; [right; by eexists | done].
  - rewrite client_set_refused by done. done.
Qed.

Lemma get_keeps_redis (key : string) (fn : option (string -> result PyVal)) (s : Py) :
  redis (get key (option_map (fun f d => lift (f d)) fn) s).1 = redis s.
Proof.
  unfold get, bind, client_get, on_redis, GET.
  destruct (live (redis s) key) as [[[b|l] t]|]; cbn; try done.
  destruct fn as [f|]; cbn; done.
Qed.

Lemma only_cache_keys_run `{Builtins} (ops : list (N * CacheOp)) :
  forall s, only_cache_keys (redis s) ->
            only_cache_keys (redis (run_calls cache_op ops s)).
Proof.
  induction ops as [|[d op] rest IH]; intros s Inv; cbn [run_calls]; [done|].
  apply IH. destruct op as [c|key fn]; cbn [cache_op].
  - unfold bind.
    pose proof (only_cache_keys_store c (MkPy (elapse d (redis s)) (stdout s)) Inv) as Inv1.
    by destruct (store c _) as [s1 [k|e]].
  - by rewrite get_keeps_redis.
Qed.

Lemma only_cache_keys_no_log (r : Redis) (suffix : string) :
  only_cache_keys r -> log r ("Cache.store:" +:+ suffix) = Some [].
Proof.
  intros Inv. unfold log.
  rewrite live_absent_of_db; [done|].
  destruct (db r !! _) as [e|] eqn:E; [|done].
  destruct (Inv _ _ E) as [_ [X|[u X]]]; [discriminate|].
  symmetry in X. by apply str_uuid_not_Cache in X.
Qed.

(** C10.  [store] is the body of the method wrapped by [count_calls]
    and by nothing else.  After [Cache()] and any calls of its methods,
    the lists [Cache.store:inputs] and [Cache.store:outputs] are empty
    and no key of the store holds a list: no history is recorded. *)
Theorem store_records_no_history `{Builtins} (ops : list (N * CacheOp)) (s : Py) :
  (forall c : StoreCall, store c = (fun s => (do! client_incr "Cache.store" in store_body c) s))
  /\ log (redis (run_calls cache_op ops (Cache_init s).1)) "Cache.store:inputs" = Some []
  /\ log (redis (run_calls cache_op ops (Cache_init s).1)) "Cache.store:outputs" = Some []
  /\ (forall k e, db (redis (run_calls cache_op ops (Cache_init s).1)) !! k = Some e ->
        exists b, value e = RStr b).
Proof.
  assert (only_cache_keys (redis (run_calls cache_op ops (Cache_init s).1))) as Inv.
  { apply only_cache_keys_run. intros k e. cbn. by rewrite lookup_empty. }
  split; [done|]. split; [|split].
  - apply (only_cache_keys_no_log _ "inputs" Inv).
  - apply (only_cache_keys_no_log _ "outputs" Inv).
  - intros k e E. by destruct (Inv k e E).
Qed.

(** ** The replay tool *)

Lemma client_lrange_all_log (k : string) (l : list string) (s : Py) :
  log (redis s) k = Some l -> client_lrange_all k s = (s, Return l).
Proof.
  intros L. unfold client_lrange_all. apply on_redis_same.
  unfold log in L. unfold LRANGE_all.
  destruct (live (redis s) k) as [[[b|l0] t]|]; congruence.
Qed.

Lemma eval_each_pure `{Builtins} (logged : list string) (inputs : list PyVal) (s : Py) :
  Forall2 evaluates logged inputs -> eval_each logged s = (s, Return inputs).
Proof.
  induction 1 as [|x v l vs Hx _ IH]; cbn [eval_each]; [done|].
  unfold bind. rewrite Hx, IH. done.
Qed.

Lemma replay_loop_prints `{Builtins} (q : string) (inputs : list PyVal) (outs : list string) :
  Forall (fun o => utf8_valid o = true) outs ->
  forall s, replay_loop q (zip inputs outs) s
            = (MkPy (redis s) (stdout s ++ zip_with (report_line q) inputs outs), Return tt).
Proof.
  intros F. revert inputs. induction F as [|o outs Ho _ IH]; intros inputs s.
  - destruct inputs; cbn; rewrite app_nil_r; by destruct s.
  - destruct inputs as [|a inputs]; cbn [zip zip_with replay_loop].
    + cbn. rewrite app_nil_r. by destruct s.
    + unfold bind, lift, decode_utf8. rewrite Ho. cbn [print].
      unfold zip in IH. rewrite IH. cbn. by rewrite <- app_assoc.
Qed.

(** C5.  In the module as it is, [replay] reads the global name
    [cache], which the module does not bind: for every identity and
    every state, whatever history is recorded, the call raises
    [NameError] before it reads a log; it prints nothing, no report is
    made, and the state is what it was. *)
Theorem replay_unbound_cache `{Builtins} (qualname : string) (s : Py) :
  replay module_cache qualname s = (s, Raise (NameError "cache")).
Proof. reflexivity. Qed.

(** With the name [cache] bound, [replay] is its body. *)
Lemma replay_bound `{Builtins} (c : CacheObject) (qualname : string) (s : Py) :
  replay (Some c) qualname s
  = (let! logged := client_lrange_all (qualname +:+ ":inputs") in
     let! inputs := eval_each logged in
     let! outputs := client_lrange_all (qualname +:+ ":outputs") in
     do! print (header qualname (length inputs)) in
     replay_loop qualname (zip inputs outputs)) s.
Proof. reflexivity. Qed.

(** Once a caller of the module has bound the global name [cache] to
    the cache object in use: when every logged input evaluates, with
    no effect on the state, and every logged output is valid UTF-8,
    [replay] reads both logs whole and prints, after what was printed
    before, a first line with the number of logged inputs and then one
    line [identity ++ str(args) ++ " -> " ++ output] for each pair
    (input [i], output [i]), up to the end of the shorter log: one line
    per call when the two logs have the same length.  The store is
    left as it was. *)
Theorem replay_report `{Builtins} (c : CacheObject) (qualname : string) (s : Py)
    (ins outs : list string) (inputs : list PyVal) :
  log (redis s) (qualname +:+ ":inputs") = Some ins ->
  log (redis s) (qualname +:+ ":outputs") = Some outs ->
  Forall2 evaluates ins inputs ->
  Forall (fun o => utf8_valid o = true) outs ->
  replay (Some c) qualname s
    = (MkPy (redis s)
         (stdout s ++ header qualname (length ins)
                   :: zip_with (report_line qualname) inputs outs),
       Return tt)
  /\ length (zip_with (report_line qualname) inputs outs)
     = Nat.min (length ins) (length outs)
  /\ (length ins = length outs ->
      length (zip_with (report_line qualname) inputs outs) = length ins).
Proof.
  intros Li Lo Fe Fo.
  pose proof (Forall2_length _ _ _ Fe) as Elen.
  assert (length (zip_with (report_line qualname) inputs outs)
          = Nat.min (length ins) (length outs)) as Zlen.
  { rewrite length_zip_with, Elen. done. }
  split; [|split; [exact Zlen | lia]].
  rewrite replay_bound. unfold bind at 1. rewrite (client_lrange_all_log _ _ _ Li).
  unfold bind at 1. rewrite (eval_each_pure _ _ _ Fe).
  unfold bind at 1. rewrite (client_lrange_all_log _ _ _ Lo).
  unfold bind at 1. cbn [print].
  rewrite replay_loop_prints by done. cbn [redis stdout].
  rewrite <- app_assoc, Elen. reflexivity.
Qed.

(** The history of the two calls of the echoing operation, replayed. *)
Lemma replay_report_witness :
  replay (H:=sample_builtins) (Some CacheOnServer) "Cache.echo" sample_history
  = (MkPy (redis sample_history)
       (stdout sample_history ++ header "Cache.echo" 2
          :: zip_with (report_line (H:=sample_builtins) "Cache.echo")
               [PyTuple [PyInt 7]; PyTuple [PyStr "foo"]] ["7"; "foo"]),
     Return tt).
Proof.
  apply (replay_report (H:=sample_builtins) CacheOnServer "Cache.echo" sample_history
           ["(7,)"; "('foo',)"] ["7"; "foo"] [PyTuple [PyInt 7]; PyTuple [PyStr "foo"]]).
  - vm_compute. reflexivity.
  - vm_compute. reflexivity.
  - repeat constructor.
  - repeat constructor.
Defined.

(** ** The memoizing fetcher *)

Section Fetcher.
Context `{Internet}.
Variable url : string.

Let count_key := "count:" +:+ url.
Let cache_key := "cache:" +:+ url.

Lemma web_incr_spec (s : Web) (n : Z) :
  counter (redis_client s) count_key = Some n ->
  exists e, web_incr count_key s
            = (MkWeb (put count_key e (redis_client s)) (world s) (fetched s), Return (n + 1))
            /\ value e = RStr (str_int (n + 1))
            /\ (live (redis_client s) count_key = None -> expire_at e = None)
            /\ counter (put count_key e (redis_client s)) count_key = Some (n + 1).
Proof.
  intros C. destruct (INCR_spec _ _ _ C) as (e & E & V & T & C1).
  exists e. unfold web_incr, on_client. rewrite E. done.
Qed.

Lemma web_get_miss (s : Web) :
  misses (redis_client s) cache_key ->
  exists v, web_get cache_key s = (s, Return v) /\ truthy v = false.
Proof.
  intros [L|[t L]]; unfold web_get, bind, on_client, GET; rewrite L.
  - exists None. by destruct s.
  - exists (Some ""). by destruct s.
Qed.

Lemma web_get_hit (s : Web) (c : string) (t : option N) :
  live (redis_client s) cache_key = Some (Entry (RStr c) t) ->
  utf8_valid c = true ->
  web_get cache_key s = (s, Return (Some c)).
Proof.
  intros L V. unfold web_get, bind, on_client, GET, lift, decode_utf8.
  rewrite L. cbn -[utf8_valid]. rewrite V. by destruct s.
Qed.

Lemma misses_put_count (r : Redis) (e : entry) :
  misses r cache_key -> misses (put count_key e r) cache_key.
Proof.
  unfold misses. rewrite live_put_other by apply web_keys_differ. done.
Qed.

Lemma get_page_miss (s : Web) (n : Z) (w : World) (response : Response) :
  counter (redis_client s) count_key = Some n ->
  misses (redis_client s) cache_key ->
  requests_get url (world s) = (w, response) ->
  exists e, value e = RStr (str_int (n + 1))
            /\ (live (redis_client s) count_key = None -> expire_at e = None)
            /\ get_page url s = after_miss url s e w response.
Proof.
  intros C Hm Er. destruct (web_incr_spec s n C) as (e & Ei & V & T & _).
  exists e. split; [done|]. split; [done|].
  unfold get_page, cache_and_count_access, bind at 1.
  fold count_key cache_key. rewrite Ei.
  set (s1 := MkWeb _ _ _).
  destruct (web_get_miss s1) as (v & Eg & Tv).
  { cbn. by apply misses_put_count. }
  unfold bind at 1. rewrite Eg.
  assert (forall k : M Web string,
            match v with
            | Some t => if truthy v then ret t else k
            | None => k
            end = k) as ->.
  { intros k. destruct v; [by rewrite Tv | done]. }
  unfold bind at 1, get_page_body. cbn [world s1]. rewrite Er.
  unfold after_miss. destruct (text response) as [page|x]; [|done].
  unfold bind, web_setex, on_client, SETEX. cbn. done.
Qed.

Lemma get_page_hit (s : Web) (n : Z) (c : string) (t : option N) :
  counter (redis_client s) count_key = Some n ->
  live (redis_client s) cache_key = Some (Entry (RStr c) t) ->
  c <> "" ->
  utf8_valid c = true ->
  exists e, value e = RStr (str_int (n + 1))
            /\ counter (put count_key e (redis_client s)) count_key = Some (n + 1)
            /\ get_page url s
               = (MkWeb (put count_key e (redis_client s)) (world s) (fetched s), Return c).
Proof.
  intros C L Hc V. destruct (web_incr_spec s n C) as (e & Ei & Ve & T & C1).
  exists e. split; [done|]. split; [done|].
  unfold get_page, cache_and_count_access, bind at 1.
  fold count_key cache_key. rewrite Ei.
  set (s1 := MkWeb _ _ _).
  unfold bind at 1. rewrite (web_get_hit s1 c t); [| |done].
  - cbn [truthy]. destruct (String.eqb_spec c ""); [done|]. reflexivity.
  - cbn. rewrite live_put_other by apply web_keys_differ. done.
Qed.
End Fetcher.

Lemma live_fresh (r : Redis) (k : string) (e : entry) :
  db r !! k = Some e -> expired (clock r) e = false -> live r k = Some e.
Proof. intros E X. unfold live. by rewrite E, X. Qed.

Lemma after_miss_facts `{Internet} (url : string) (s : Web) (e : entry) (w : World)
    (response : Response) :
  (after_miss url s e w response).2 = text response
  /\ fetched (after_miss url s e w response).1 = fetched s ++ [url]
  /\ world (after_miss url s e w response).1 = w.
Proof. unfold after_miss. by destruct (text response). Qed.

Lemma counter_after_count `{Internet} (url : string) (r : Redis) (e e' : entry) (n : Z) (d : N) :
  value e = RStr (str_int n) ->
  exists m, counter (elapse d (put ("cache:" +:+ url) e' (put ("count:" +:+ url) e r)))
              ("count:" +:+ url) = Some m.
Proof.
  intros V. unfold counter, live. cbn [db elapse put clock].
  rewrite lookup_insert_ne by (intros X; symmetry in X; by apply web_keys_differ in X).
  rewrite lookup_insert_eq.
  destruct (expired _ e); [by eexists|].
  destruct e as [v t]. cbn in V. subst v. rewrite parse_str_int. by eexists.
Qed.

(** C6.  A call on an address with nothing live under its cache key,
    whose fetch fails: the failure comes out as it is, the entry under
    the cache key is what it was, and the count stored is one more than
    before. *)
Theorem get_page_failure_not_cached `{Internet} (url : string) (s : Web) (n : Z)
    (w : World) (dt : N) (x : exn) :
  counter (redis_client s) ("count:" +:+ url) = Some n ->
  live (redis_client s) ("cache:" +:+ url) = None ->
  requests_get url (world s) = (w, MkResponse dt (Raise x)) ->
  exists s1 : Web,
    get_page url s = (s1, Raise x)
    /\ db (redis_client s1) !! ("cache:" +:+ url) = db (redis_client s) !! ("cache:" +:+ url)
    /\ (exists e, db (redis_client s1) !! ("count:" +:+ url) = Some e
                  /\ value e = RStr (str_int (n + 1)))
    /\ fetched s1 = fetched s ++ [url].
Proof.
  intros C L Er.
  destruct (get_page_miss url s n w _ C (or_introl L) Er) as (e & V & _ & E).
  rewrite E. unfold after_miss. cbn [text took].
  eexists. split; [reflexivity|]. cbn. split; [|split; [|done]].
  - rewrite lookup_insert_ne by apply web_keys_differ. done.
  - exists e. by rewrite lookup_insert_eq.
Qed.

(** With no network: the first call of an address. *)
Lemma get_page_failure_not_cached_witness :
  exists s1 : @Web offline,
    @get_page offline "http://a" (@fresh_web offline 0%nat) = (s1, Raise (ConnectionError 111))
    /\ db (redis_client s1) !! "cache:http://a" = None
    /\ (exists e, db (redis_client s1) !! "count:http://a" = Some e /\ value e = RStr "1")
    /\ fetched s1 = ["http://a"].
Proof.
  apply (@get_page_failure_not_cached offline "http://a" (@fresh_web offline 0%nat) 0
           1%nat 1%N (ConnectionError 111)); reflexivity.
Defined.

(** C7.  A call that misses and whose fetch returns a page leaves the
    page under the cache key, to expire 10 units after the fetch ended:
    the entry is live up to that time and absent once it is past.  A
    call of the same address more than 10 units later runs the fetch
    again and gives what that fetch gives. *)
Theorem get_page_refetches_after_ttl `{Internet} (url : string) (s : Web) (n : Z)
    (w1 w2 : World) (dt1 d : N) (page : string) (response2 : Response) :
  counter (redis_client s) ("count:" +:+ url) = Some n ->
  live (redis_client s) ("cache:" +:+ url) = None ->
  requests_get url (world s) = (w1, MkResponse dt1 (Return page)) ->
  requests_get url w1 = (w2, response2) ->
  (10 < d)%N ->
  exists s1 : Web,
    get_page url s = (s1, Return page)
    /\ clock (redis_client s1) = (clock (redis_client s) + dt1)%N
    /\ db (redis_client s1) !! ("cache:" +:+ url)
       = Some (Entry (RStr page) (Some (clock (redis_client s) + dt1 + 10)%N))
    /\ (forall d' : N, (d' <= 10)%N ->
          live (redis_client (wait d' s1)) ("cache:" +:+ url)
          = Some (Entry (RStr page) (Some (clock (redis_client s) + dt1 + 10)%N)))
    /\ live (redis_client (wait d s1)) ("cache:" +:+ url) = None
    /\ exists s2 : Web,
         get_page url (wait d s1) = (s2, text response2)
         /\ fetched s2 = fetched s ++ [url; url]
         /\ world s2 = w2.
Proof.
  intros C L Er1 Er2 Hd.
  destruct (get_page_miss url s n w1 _ C (or_introl L) Er1) as (e & V & _ & E).
  rewrite E. unfold after_miss. cbn [text took].
  set (r := elapse dt1 (put ("count:" +:+ url) e (redis_client s))).
  set (s1 := MkWeb _ _ _).
  assert (db (redis_client s1) !! ("cache:" +:+ url)
          = Some (Entry (RStr page) (Some (clock (redis_client s) + dt1 + 10)%N))) as Edb.
  { cbn. by rewrite lookup_insert_eq. }
  assert (live (redis_client (wait d s1)) ("cache:" +:+ url) = None) as Lgone.
  { eapply live_expired; [exact Edb|]. cbn. apply N.ltb_lt. lia. }
  exists s1. split; [done|]. split; [done|]. split; [exact Edb|]. split; [|split; [exact Lgone|]].
  - intros d' Hd'. apply live_fresh; [exact Edb|].
    cbn. apply N.ltb_ge. lia.
  - destruct (counter_after_count url (redis_client s) e
                (Entry (RStr page) (Some (clock r + 10)%N)) (n + 1) (dt1 + d) V) as (m & Cm).
    assert (counter (redis_client (wait d s1)) ("count:" +:+ url) = Some m) as Cm'.
    { revert Cm. unfold counter, live. cbn [wait redis_client s1 r elapse put db clock].
      rewrite N.add_assoc. done. }
    destruct (get_page_miss url (wait d s1) m w2 response2 Cm' (or_introl Lgone) Er2)
      as (e2 & _ & _ & E2).
    rewrite E2.
    destruct (after_miss_facts url (wait d s1) e2 w2 response2) as (A1 & A2 & A3).
    exists (after_miss url (wait d s1) e2 w2 response2).1.
    split; [|split; [|done]].
    + rewrite <- A1. apply surjective_pairing.
    + rewrite A2. cbn. by rewrite <- app_assoc.
Qed.

(** An address fetched at time 0 (the fetch takes 3 units) and asked
    again 11 units after the first call ended. *)
Lemma get_page_refetches_after_ttl_witness :
  exists s1 : @Web echo_site,
    @get_page echo_site "a" (@fresh_web echo_site 0%nat) = (s1, Return "<html>a</html>")
    /\ clock (redis_client s1) = 3%N
    /\ db (redis_client s1) !! "cache:a" = Some (Entry (RStr "<html>a</html>") (Some 13%N))
    /\ (forall d' : N, (d' <= 10)%N ->
          live (redis_client (wait d' s1)) "cache:a"
          = Some (Entry (RStr "<html>a</html>") (Some 13%N)))
    /\ live (redis_client (wait 11 s1)) "cache:a" = None
    /\ exists s2 : @Web echo_site,
         @get_page echo_site "a" (wait 11 s1) = (s2, Return "<html>a</html>")
         /\ fetched s2 = ["a"; "a"]
         /\ world s2 = 2%nat.
Proof.
  apply (@get_page_refetches_after_ttl echo_site "a" (@fresh_web echo_site 0%nat) 0
           1%nat 2%nat 3%N 11%N "<html>a</html>" (MkResponse 3 (Return "<html>a</html>")));
    try lia; reflexivity.
Defined.

(** C9.  A call that finds the empty text live under the cache key
    runs the fetch all the same and, when the fetch returns a page,
    writes the page over the entry, to expire 10 units later.  A call
    that finds a text that is not empty returns it and runs no fetch. *)
Theorem get_page_empty_cached_is_miss `{Internet} (url : string) (s : Web) (n : Z)
    (t : option N) (w : World) (dt : N) (page : string) :
  counter (redis_client s) ("count:" +:+ url) = Some n ->
  live (redis_client s) ("cache:" +:+ url) = Some (Entry (RStr "") t) ->
  requests_get url (world s) = (w, MkResponse dt (Return page)) ->
  (exists s1 : Web,
     get_page url s = (s1, Return page)
     /\ fetched s1 = fetched s ++ [url]
     /\ world s1 = w
     /\ db (redis_client s1) !! ("cache:" +:+ url)
        = Some (Entry (RStr page) (Some (clock (redis_client s) + dt + 10)%N)))
  /\ (forall (s' : Web) (n' : Z) (c : string) (t' : option N),
        counter (redis_client s') ("count:" +:+ url) = Some n' ->
        live (redis_client s') ("cache:" +:+ url) = Some (Entry (RStr c) t') ->
        c <> "" ->
        utf8_valid c = true ->
        exists s1' : Web,
          get_page url s' = (s1', Return c)
          /\ fetched s1' = fetched s'
          /\ world s1' = world s'
          /\ db (redis_client s1') !! ("cache:" +:+ url)
             = db (redis_client s') !! ("cache:" +:+ url)).
Proof.
  intros C L Er. split.
  - destruct (get_page_miss url s n w _ C (or_intror (ex_intro _ t L)) Er) as (e & _ & _ & E).
    rewrite E. unfold after_miss. cbn [text took].
    eexists. split; [reflexivity|]. cbn. split; [done|]. split; [done|].
    by rewrite lookup_insert_eq.
  - intros s' n' c t' C' L' Hc V.
    destruct (get_page_hit url s' n' c t' C' L' Hc V) as (e & _ & _ & E).
    rewrite E. eexists. split; [reflexivity|]. cbn. split; [done|]. split; [done|].
    rewrite lookup_insert_ne by apply web_keys_differ. done.
Qed.

Lemma get_page_empty_cached_is_miss_witness :
  exists s1 : @Web blank_site,
    @get_page blank_site "u" blank_cached = (s1, Return "")
    /\ fetched s1 = fetched blank_cached ++ ["u"]
    /\ world s1 = 2%nat
    /\ db (redis_client s1) !! "cache:u"
       = Some (Entry (RStr "") (Some (clock (redis_client blank_cached) + 3 + 10)%N)).
Proof.
  apply (@get_page_empty_cached_is_miss blank_site "u" blank_cached 1 (Some 13%N)
           2%nat 3%N ""); reflexivity.
Defined.

(** On an address whose page is not empty: a second call at most 10
    units after the first returns the page of the first and runs no
    fetch; the count stands at 2. *)
Lemma get_page_twice `{Internet} (url : string) (s : Web) (w : World) (dt d : N)
    (page : string) :
  live (redis_client s) ("count:" +:+ url) = None ->
  live (redis_client s) ("cache:" +:+ url) = None ->
  requests_get url (world s) = (w, MkResponse dt (Return page)) ->
  page <> "" ->
  utf8_valid page = true ->
  (d <= 10)%N ->
  exists s1 s2 : Web,
    get_page url s = (s1, Return page)
    /\ get_page url (wait d s1) = (s2, Return page)
    /\ fetched s2 = fetched s ++ [url]
    /\ world s2 = w
    /\ counter (redis_client s2) ("count:" +:+ url) = Some 2.
Proof.
  intros Lc L Er Hp V Hd.
  assert (counter (redis_client s) ("count:" +:+ url) = Some 0) as C.
  { unfold counter. by rewrite Lc. }
  destruct (get_page_miss url s 0 w _ C (or_introl L) Er) as (e & Ve & Te & E).
  rewrite E. unfold after_miss. cbn [text took].
  set (r := elapse dt (put ("count:" +:+ url) e (redis_client s))).
  set (s1 := MkWeb _ _ _).
  destruct e as [v te]. cbn in Ve. specialize (Te Lc). cbn in Te. subst v te.
  assert (counter (redis_client (wait d s1)) ("count:" +:+ url) = Some 1) as C1.
  { unfold counter. rewrite (live_no_ttl _ _ (RStr (str_int 1))); [apply (parse_str_int 1)|].
    cbn. rewrite lookup_insert_ne
      by (intros X; symmetry in X; by apply web_keys_differ in X).
    by rewrite lookup_insert_eq. }
  assert (live (redis_client (wait d s1)) ("cache:" +:+ url)
          = Some (Entry (RStr page) (Some (clock r + 10)%N))) as L1.
  { apply live_fresh; [cbn; by rewrite lookup_insert_eq|].
    cbn. apply N.ltb_ge. lia. }
  destruct (get_page_hit url (wait d s1) 1 page _ C1 L1 Hp V) as (e2 & _ & C2 & E2).
  exists s1. eexists. split; [reflexivity|]. split; [exact E2|].
  cbn [fetched world redis_client]. split; [done|]. split; [done|]. exact C2.
Qed.

(** C1 at an address whose page is empty: the second call, one unit
    after the first, runs the fetch again. *)
Theorem get_page_empty_page_fetched_twice :
  (@get_page blank_site "u" (@fresh_web blank_site 0%nat)).2 = Return ""
  /\ (@get_page blank_site "u" (wait 1 blank_cached)).2 = Return ""
  /\ fetched (@get_page blank_site "u" (wait 1 blank_cached)).1 = ["u"; "u"]
  /\ counter (redis_client (@get_page blank_site "u" (wait 1 blank_cached)).1) "count:u"
     = Some 2.
Proof. vm_compute. repeat split. Qed.

(** ** Further properties of [exercise.py] *)

Lemma INCR_other_keys (r : Redis) (k k' : string) :
  k <> k' -> db (INCR k r).1 !! k' = db r !! k'.
Proof.
  intros Hne. unfold INCR.
  destruct (live r k) as [[[b|l] t]|]; cbn [fst]; try done.
  - destruct (parse_int b); cbn [fst]; [|done].
    cbn. by rewrite lookup_insert_ne.
  - cbn. by rewrite lookup_insert_ne.
Qed.

Lemma INCR_on_list (r : Redis) (k : string) (l : list string) (t : option N) :
  live r k = Some (Entry (RList l) t) -> INCR k r = (r, Raise WrongType).
Proof. intros L. unfold INCR. by rewrite L. Qed.

Lemma INCR_on_text (r : Redis) (k b : string) (t : option N) :
  live r k = Some (Entry (RStr b) t) -> parse_int b = None ->
  INCR k r = (r, Raise NotAnInteger).
Proof. intros L P. unfold INCR. by rewrite L, P. Qed.

(** [store] of a value the client cannot encode ([None], a tuple):
    [DataError] comes out, the call is counted all the same, and no
    other key of the store has moved. *)
Theorem store_refuses_unencodable `{Builtins} (c : StoreCall) (s : Py) (n : Z) :
  encode (data c) = None ->
  counter (redis s) "Cache.store" = Some n ->
  exists s1 : Py,
    store c s = (s1, Raise DataError)
    /\ counter (redis s1) "Cache.store" = Some (n + 1)
    /\ stdout s1 = stdout s
    /\ forall k, k <> "Cache.store" -> db (redis s1) !! k = db (redis s) !! k.
Proof.
  intros Eb C. destruct (INCR_spec _ _ _ C) as (e & E & _ & _ & C1).
  exists (MkPy (put "Cache.store" e (redis s)) (stdout s)).
  split; [|split; [exact C1|split; [done|]]].
  - unfold store, count_calls, bind at 1, client_incr, on_redis. rewrite E.
    unfold store_body, bind. by rewrite client_set_refused.
  - intros k Hk. cbn. by rewrite lookup_insert_ne.
Qed.

Lemma store_refuses_unencodable_witness :
  exists s1 : Py,
    store (H:=sample_builtins) (MkStoreCall 9 PyNone) fresh_py = (s1, Raise DataError)
    /\ counter (redis s1) "Cache.store" = Some 1
    /\ stdout s1 = []
    /\ forall k, k <> "Cache.store" -> db (redis s1) !! k = db (redis fresh_py) !! k.
Proof.
  apply (store_refuses_unencodable (H:=sample_builtins) (MkStoreCall 9 PyNone) fresh_py 0);
    reflexivity.
Defined.

(** When the counter key of an operation wrapped by [count_calls]
    holds a list, the wrapper raises the error [WRONGTYPE] of the
    server; when it holds a text that is not an integer, the error
    that the value is not an integer.  In both cases the operation is
    not run: the state is what it was. *)
Theorem count_calls_refused {A R} (qualname : string) (method : A -> M Py R) (a : A) (s : Py) :
  (forall (l : list string) (t : option N),
     live (redis s) qualname = Some (Entry (RList l) t) ->
     count_calls qualname method a s = (s, Raise WrongType))
  /\ (forall (b : string) (t : option N),
        live (redis s) qualname = Some (Entry (RStr b) t) ->
        parse_int b = None ->
        count_calls qualname method a s = (s, Raise NotAnInteger)).
Proof.
  split.
  - intros l t L. unfold count_calls, bind, client_incr, on_redis.
    rewrite (INCR_on_list _ _ l t L). by destruct s.
  - intros b t L P. unfold count_calls, bind, client_incr, on_redis.
    rewrite (INCR_on_text _ _ b t L P). by destruct s.
Qed.

Lemma count_calls_refused_witness :
  count_calls "Cache.echo" echo_method (MkCall [PyInt 1] [])
    (MkPy (MkRedis 0 {[ "Cache.echo" := Entry (RStr "many") None ]}) [])
  = (MkPy (MkRedis 0 {[ "Cache.echo" := Entry (RStr "many") None ]}) [], Raise NotAnInteger).
Proof.
  apply (proj2 (count_calls_refused "Cache.echo" echo_method (MkCall [PyInt 1] [])
                  (MkPy (MkRedis 0 {[ "Cache.echo" := Entry (RStr "many") None ]}) []))
           "many" None); reflexivity.
Defined.

Lemma client_get_string (k b : string) (t : option N) (s : Py) :
  live (redis s) k = Some (Entry (RStr b) t) -> client_get k s = (s, Return (Some b)).
Proof. intros L. apply on_redis_same. by apply (GET_string _ _ _ t). Qed.

Lemma get_not_live (key : string) (fn : option (string -> M Py PyVal)) (s : Py) :
  live (redis s) key = None -> get key fn s = (s, Return PyNone).
Proof.
  intros L. unfold get, bind, client_get.
  rewrite (on_redis_same _ _ _ (GET_absent _ _ L)). reflexivity.
Qed.

(** [Cache()] empties the store: whatever was there, right after it
    every key reads as absent, every counter as 0 and every list as
    empty; the clock and what was printed are untouched. *)
Theorem Cache_init_wipes (s : Py) (key : string) (fn : option (string -> M Py PyVal)) :
  exists s1 : Py,
    Cache_init s = (s1, Return tt)
    /\ get key fn s1 = (s1, Return PyNone)
    /\ counter (redis s1) key = Some 0
    /\ log (redis s1) key = Some []
    /\ clock (redis s1) = clock (redis s)
    /\ stdout s1 = stdout s.
Proof.
  exists (MkPy (MkRedis (clock (redis s)) ∅) (stdout s)).
  split; [done|].
  assert (live (MkRedis (clock (redis s)) ∅) key = None) as L.
  { apply live_absent_of_db. cbn. apply lookup_empty. }
  split; [|split; [|split; [|done]]].
  - by apply get_not_live.
  - unfold counter. cbn [redis]. by rewrite L.
  - unfold log. cbn [redis]. by rewrite L.
Qed.

Lemma store_then_live `{Builtins} (c : StoreCall) (s : Py) (b : string) (n : Z) (d : N) :
  encode (data c) = Some b ->
  counter (redis s) "Cache.store" = Some n ->
  exists s1 : Py,
    store c s = (s1, Return (str_uuid (uuid4 (random c))))
    /\ live (elapse d (redis s1)) (str_uuid (uuid4 (random c))) = Some (Entry (RStr b) None).
Proof.
  intros Eb C.
  destruct (count_calls_unfold "Cache.store" store_body c s n C) as (s0 & _ & _ & E).
  unfold store. rewrite E. unfold store_body, bind.
  rewrite (client_set_eq _ _ b) by done.
  eexists. split; [reflexivity|].
  apply live_no_ttl. cbn. by rewrite lookup_insert_eq.
Qed.

(** A text stored with [store] comes back as the same text from
    [get_str], at any later time. *)
Theorem store_get_str `{Builtins} (rnd : N) (t : string) (s : Py) (n : Z) (d : N) :
  utf8_valid t = true ->
  counter (redis s) "Cache.store" = Some n ->
  exists (s1 : Py) (key : string),
    store (MkStoreCall rnd (PyStr t)) s = (s1, Return key)
    /\ get_str key (MkPy (elapse d (redis s1)) (stdout s1))
       = (MkPy (elapse d (redis s1)) (stdout s1), Return (PyStr t)).
Proof.
  intros V C.
  destruct (store_then_live (MkStoreCall rnd (PyStr t)) s t n d eq_refl C) as (s1 & E & L).
  cbn [random] in E, L.
  exists s1, (str_uuid (uuid4 rnd)). split; [exact E|].
  unfold get_str, get, bind at 1.
  rewrite (client_get_string _ t None (MkPy (elapse d (redis s1)) (stdout s1)) L).
  unfold bind, lift, decode_utf8. rewrite V. reflexivity.
Qed.

Lemma store_get_str_witness :
  exists (s1 : Py) (key : string),
    store (H:=sample_builtins) (MkStoreCall 3 (PyStr "hello")) fresh_py = (s1, Return key)
    /\ get_str key (MkPy (elapse 50 (redis s1)) (stdout s1))
       = (MkPy (elapse 50 (redis s1)) (stdout s1), Return (PyStr "hello")).
Proof.
  apply (store_get_str (H:=sample_builtins) 3 "hello" fresh_py 0 50); reflexivity.
Defined.

(** [get_str] of a key under which the stored bytes are not valid
    UTF-8 raises [UnicodeDecodeError]; the state is what it was. *)
Theorem get_str_invalid_bytes (key b : string) (t : option N) (s : Py) :
  live (redis s) key = Some (Entry (RStr b) t) ->
  utf8_valid b = false ->
  get_str key s = (s, Raise UnicodeDecodeError).
Proof.
  intros L V. unfold get_str, get, bind at 1.
  rewrite (client_get_string _ b t s L).
  unfold bind, lift, decode_utf8. rewrite V. reflexivity.
Qed.

(** An integer stored with [store] comes back as the same integer from
    [get_int], when [int] reads the decimal text of an integer back. *)
Theorem store_get_int `{Builtins} (rnd : N) (z : Z) (s : Py) (n : Z) (d : N) :
  (forall x : Z, py_int (str_int x) = Return x) ->
  counter (redis s) "Cache.store" = Some n ->
  exists (s1 : Py) (key : string),
    store (MkStoreCall rnd (PyInt z)) s = (s1, Return key)
    /\ get_int key (MkPy (elapse d (redis s1)) (stdout s1))
       = (MkPy (elapse d (redis s1)) (stdout s1), Return (PyInt z)).
Proof.
  intros Hint C.
  destruct (store_then_live (MkStoreCall rnd (PyInt z)) s (str_int z) n d eq_refl C)
    as (s1 & E & L).
  cbn [random] in E, L.
  exists s1, (str_uuid (uuid4 rnd)). split; [exact E|].
  unfold get_int, get, bind at 1.
  rewrite (client_get_string _ (str_int z) None (MkPy (elapse d (redis s1)) (stdout s1)) L).
  unfold bind, lift. rewrite Hint. reflexivity.
Qed.

Lemma store_get_int_witness :
  exists (s1 : Py) (key : string),
    store (H:=sample_builtins) (MkStoreCall 3 (PyInt (-42))) fresh_py = (s1, Return key)
    /\ get_int (H:=sample_builtins) key (MkPy (elapse 50 (redis s1)) (stdout s1))
       = (MkPy (elapse 50 (redis s1)) (stdout s1), Return (PyInt (-42))).
Proof.
  apply (store_get_int (H:=sample_builtins) 3 (-42) fresh_py 0 50).
  - intros x. cbn. by rewrite parse_str_int.
  - reflexivity.
Defined.

Lemma get_str_invalid_bytes_witness :
  get_str "k" (MkPy (MkRedis 0 {[ "k" := Entry (RStr (String (ascii_of_N 255) "")) None ]}) [])
  = (MkPy (MkRedis 0 {[ "k" := Entry (RStr (String (ascii_of_N 255) "")) None ]}) [],
     Raise UnicodeDecodeError).
Proof.
  apply (get_str_invalid_bytes "k" (String (ascii_of_N 255) "") None
           (MkPy (MkRedis 0 {[ "k" := Entry (RStr (String (ascii_of_N 255) "")) None ]}) []));
    reflexivity.
Defined.

Lemma method_frame_logged `{Builtins} (qualname : string) (method : Call -> M Py PyVal)
    (c : Call) (s1 s2 : Py) (a : result PyVal) (k : string) (l : list string) :
  (forall c s k,
     k = qualname +:+ ":inputs" \/ k = qualname +:+ ":outputs" ->
     db (redis (method c s).1) !! k = db (redis s) !! k) ->
  k = qualname +:+ ":inputs" \/ k = qualname +:+ ":outputs" ->
  method c s1 = (s2, a) ->
  logged (redis s1) k l -> logged (redis s2) k l.
Proof.
  intros Hframe Hk Em L. unfold logged.
  replace s2 with (method c s1).1 by (by rewrite Em).
  by rewrite Hframe.
Qed.

(** The state in which [call_history] starts the wrapped operation:
    the input is pushed. *)
Lemma call_history_pushes_input `{Builtins} (qualname : string)
    (method : Call -> M Py PyVal) (c : Call) (s : Py) (ins outs : list string) :
  logged (redis s) (qualname +:+ ":inputs") ins ->
  logged (redis s) (qualname +:+ ":outputs") outs ->
  exists s1 : Py,
    client_rpush (qualname +:+ ":inputs") (PyStr (serialized c)) s
      = (s1, Return (Z.of_nat (length ins) + 1))
    /\ call_history qualname method c s = after_input qualname method c s1
    /\ logged (redis s1) (qualname +:+ ":inputs") (ins ++ [serialized c])
    /\ logged (redis s1) (qualname +:+ ":outputs") outs.
Proof.
  intros Li Lo.
  exists (MkPy (put (qualname +:+ ":inputs") (Entry (RList (ins ++ [serialized c])) None)
                 (redis s)) (stdout s)).
  assert (client_rpush (qualname +:+ ":inputs") (PyStr (serialized c)) s
          = (MkPy (put (qualname +:+ ":inputs") (Entry (RList (ins ++ [serialized c])) None)
                     (redis s)) (stdout s), Return (Z.of_nat (length ins) + 1))) as E.
  { rewrite (client_rpush_eq _ _ (serialized c)) by done.
    by rewrite (logged_RPUSH _ _ (serialized c) _ Li). }
  split; [exact E|]. split; [|split].
  - unfold call_history, bind at 1. fold (serialized c). rewrite E. reflexivity.
  - apply logged_put_same. by destruct ins.
  - apply logged_put_other; [apply log_keys_differ | exact Lo].
Qed.

(** A call of a recorded operation that raises: the exception comes
    out as it is, the input stays in the inputs log and nothing is
    pushed to the outputs log, so the inputs log is one entry ahead. *)
Theorem call_history_failed_call `{Builtins} (qualname : string)
    (method : Call -> M Py PyVal) (c : Call) (s s2 : Py) (e : exn)
    (ins outs : list string) :
  (forall c s k,
     k = qualname +:+ ":inputs" \/ k = qualname +:+ ":outputs" ->
     db (redis (method c s).1) !! k = db (redis s) !! k) ->
  logged (redis s) (qualname +:+ ":inputs") ins ->
  logged (redis s) (qualname +:+ ":outputs") outs ->
  method c (client_rpush (qualname +:+ ":inputs") (PyStr (serialized c)) s).1 = (s2, Raise e) ->
  call_history qualname method c s = (s2, Raise e)
  /\ log (redis s2) (qualname +:+ ":inputs") = Some (ins ++ [serialized c])
  /\ log (redis s2) (qualname +:+ ":outputs") = Some outs.
Proof.
  intros Hframe Li Lo Em.
  destruct (call_history_pushes_input qualname method c s ins outs Li Lo)
    as (s1 & E1 & Ec & Li1 & Lo1).
  rewrite E1 in Em. cbn [fst] in Em.
  split; [|split].
  - rewrite Ec. unfold after_input, bind. by rewrite Em.
  - apply logged_log. eapply method_frame_logged; eauto.
  - apply logged_log. eapply method_frame_logged; eauto.
Qed.

Lemma call_history_failed_call_witness :
  call_history (H:=sample_builtins) "Cache.boom" failing_method (MkCall [PyInt 7] []) fresh_py
  = ((client_rpush (H:=sample_builtins) "Cache.boom:inputs" (PyStr "(7,)") fresh_py).1,
     Raise (OtherError "boom"))
  /\ log (redis (client_rpush (H:=sample_builtins) "Cache.boom:inputs" (PyStr "(7,)") fresh_py).1)
       "Cache.boom:inputs" = Some ["(7,)"]
  /\ log (redis (client_rpush (H:=sample_builtins) "Cache.boom:inputs" (PyStr "(7,)") fresh_py).1)
       "Cache.boom:outputs" = Some [].
Proof.
  apply (call_history_failed_call (H:=sample_builtins) "Cache.boom" failing_method
           (MkCall [PyInt 7] []) fresh_py _ (OtherError "boom") [] []).
  - intros c s k _. reflexivity.
  - reflexivity.
  - reflexivity.
  - reflexivity.
Defined.

(** A call of a recorded operation that returns a value the client
    cannot encode ([None], a tuple): the operation has run, then
    [DataError] comes out in place of the result; the input is logged
    and no output is. *)
Theorem call_history_unencodable_result `{Builtins} (qualname : string)
    (method : Call -> M Py PyVal) (c : Call) (s s2 : Py) (out : PyVal)
    (ins outs : list string) :
  (forall c s k,
     k = qualname +:+ ":inputs" \/ k = qualname +:+ ":outputs" ->
     db (redis (method c s).1) !! k = db (redis s) !! k) ->
  logged (redis s) (qualname +:+ ":inputs") ins ->
  logged (redis s) (qualname +:+ ":outputs") outs ->
  method c (client_rpush (qualname +:+ ":inputs") (PyStr (serialized c)) s).1
    = (s2, Return out) ->
  encode out = None ->
  call_history qualname method c s = (s2, Raise DataError)
  /\ log (redis s2) (qualname +:+ ":inputs") = Some (ins ++ [serialized c])
  /\ log (redis s2) (qualname +:+ ":outputs") = Some outs.
Proof.
  intros Hframe Li Lo Em Eo.
  destruct (call_history_pushes_input qualname method c s ins outs Li Lo)
    as (s1 & E1 & Ec & Li1 & Lo1).
  rewrite E1 in Em. cbn [fst] in Em.
  split; [|split].
  - rewrite Ec. unfold after_input, bind at 1. rewrite Em.
    unfold bind. by rewrite client_rpush_refused.
  - apply logged_log. eapply method_frame_logged; eauto.
  - apply logged_log. eapply method_frame_logged; eauto.
Qed.

Lemma call_history_unencodable_result_witness :
  call_history (H:=sample_builtins) "Cache.echo" echo_method (MkCall [PyNone] []) fresh_py
  = ((client_rpush (H:=sample_builtins) "Cache.echo:inputs" (PyStr "(None,)") fresh_py).1,
     Raise DataError)
  /\ log (redis (client_rpush (H:=sample_builtins) "Cache.echo:inputs" (PyStr "(None,)") fresh_py).1)
       "Cache.echo:inputs" = Some ["(None,)"]
  /\ log (redis (client_rpush (H:=sample_builtins) "Cache.echo:inputs" (PyStr "(None,)") fresh_py).1)
       "Cache.echo:outputs" = Some [].
Proof.
  apply (call_history_unencodable_result (H:=sample_builtins) "Cache.echo" echo_method
           (MkCall [PyNone] []) fresh_py _ PyNone [] []).
  - intros c s k _. unfold echo_method. by destruct (args c).
  - reflexivity.
  - reflexivity.
  - reflexivity.
  - reflexivity.
Defined.


Lemma eval_each_raises `{Builtins} (pre post : list string) (x : string)
    (vs : list PyVal) (e : exn) (s : Py) :
  Forall2 evaluates pre vs ->
  py_eval x s = (s, Raise e) ->
  eval_each (pre ++ x :: post) s = (s, Raise e).
Proof.
  intros F Ex. induction F as [|y v l vs' Hy _ IH]; cbn [app eval_each]; unfold bind.
  - by rewrite Ex.
  - by rewrite Hy, IH.
Qed.

(** Once a caller of the module has bound the global name [cache]:
    when a logged input does not evaluate (the inputs before it
    evaluate, with no effect on the state, and [eval] of it raises and
    leaves the state as it was), [replay] raises what [eval] raises and
    prints nothing, not even the first line. *)
Theorem replay_eval_failure `{Builtins} (c : CacheObject) (qualname : string) (s : Py)
    (pre post : list string) (x : string) (vs : list PyVal) (e : exn) :
  log (redis s) (qualname +:+ ":inputs") = Some (pre ++ x :: post) ->
  Forall2 evaluates pre vs ->
  py_eval x s = (s, Raise e) ->
  replay (Some c) qualname s = (s, Raise e).
Proof.
  intros Li F Ex. rewrite replay_bound. unfold bind at 1.
  rewrite (client_lrange_all_log _ _ _ Li).
  unfold bind at 1. by rewrite (eval_each_raises pre post x vs e s F Ex).
Qed.

Lemma replay_eval_failure_witness :
  replay (H:=sample_builtins) (Some CacheOnServer) "f"
    (MkPy (MkRedis 0 {[ "f:inputs" := Entry (RList ["(7,)"; "(inf,)"; "(1, 2)"]) None ]}) [])
  = (MkPy (MkRedis 0 {[ "f:inputs" := Entry (RList ["(7,)"; "(inf,)"; "(1, 2)"]) None ]}) [],
     Raise (NameError "inf")).
Proof.
  apply (replay_eval_failure (H:=sample_builtins) CacheOnServer "f" _ ["(7,)"] ["(1, 2)"]
           "(inf,)" [PyTuple [PyInt 7]] (NameError "inf")).
  - reflexivity.
  - repeat constructor.
  - reflexivity.
Defined.

Lemma replay_loop_stops `{Builtins} (q : string) (good rest : list string) (bad : string) :
  Forall (fun o => utf8_valid o = true) good ->
  utf8_valid bad = false ->
  forall (inputs : list PyVal) (s : Py),
    (length good < length inputs)%nat ->
    replay_loop q (zip inputs (good ++ bad :: rest)) s
    = (MkPy (redis s)
         (stdout s ++ zip_with (report_line q) (take (length good) inputs) good),
       Raise UnicodeDecodeError).
Proof.
  intros F Hbad. induction F as [|o good Ho _ IH]; intros inputs s Hlen.
  - destruct inputs as [|a inputs]; [cbn in Hlen; lia|].
    cbn [app zip zip_with replay_loop length take].
    unfold bind, lift, decode_utf8. rewrite Hbad. cbn. rewrite app_nil_r. by destruct s.
  - destruct inputs as [|a inputs]; [cbn in Hlen; lia|].
    cbn [app zip zip_with replay_loop length take].
    unfold bind at 1, lift, decode_utf8. rewrite Ho.
    unfold bind at 1. cbn [print].
    unfold zip in IH. rewrite IH by (cbn in Hlen; lia).
    cbn. by rewrite <- app_assoc.
Qed.

(** Once a caller of the module has bound the global name [cache]:
    when the logged inputs evaluate, with no effect on the state, and a
    logged output is not valid UTF-8, [replay] prints the first line
    and the lines of the calls before that output, then raises
    [UnicodeDecodeError]; the store is left as it was. *)
Theorem replay_decode_failure `{Builtins} (c : CacheObject) (qualname : string) (s : Py)
    (ins good rest : list string) (bad : string) (inputs : list PyVal) :
  log (redis s) (qualname +:+ ":inputs") = Some ins ->
  log (redis s) (qualname +:+ ":outputs") = Some (good ++ bad :: rest) ->
  Forall2 evaluates ins inputs ->
  Forall (fun o => utf8_valid o = true) good ->
  utf8_valid bad = false ->
  (length good < length ins)%nat ->
  replay (Some c) qualname s
  = (MkPy (redis s)
       (stdout s ++ header qualname (length ins)
          :: zip_with (report_line qualname) (take (length good) inputs) good),
     Raise UnicodeDecodeError).
Proof.
  intros Li Lo Fe Fg Hbad Hlen.
  pose proof (Forall2_length _ _ _ Fe) as Elen.
  rewrite replay_bound. unfold bind at 1. rewrite (client_lrange_all_log _ _ _ Li).
  unfold bind at 1. rewrite (eval_each_pure _ _ _ Fe).
  unfold bind at 1. rewrite (client_lrange_all_log _ _ _ Lo).
  unfold bind at 1. cbn [print].
  rewrite (replay_loop_stops qualname good rest bad Fg Hbad) by (cbn; lia).
  cbn [redis stdout]. rewrite <- app_assoc, Elen. reflexivity.
Qed.

Lemma replay_decode_failure_witness :
  replay (H:=sample_builtins) (Some CacheOnServer) "f" undecodable_history
  = (MkPy (redis undecodable_history) ["f was called 2 times:"; "f(7,) -> 7"],
     Raise UnicodeDecodeError).
Proof.
  apply (replay_decode_failure (H:=sample_builtins) CacheOnServer "f" undecodable_history
           ["(7,)"; "(1, 2)"] ["7"] [] (String (ascii_of_N 255) "")
           [PyTuple [PyInt 7]; PyTuple [PyInt 1; PyInt 2]]).
  - reflexivity.
  - reflexivity.
  - repeat constructor.
  - repeat constructor.
  - reflexivity.
  - cbn. lia.
Defined.

(** Once a caller of the module has bound the global name [cache]:
    [replay] after calls of a recorded operation that all returned, on
    a store where its logs were absent: when the text logged for each
    call evaluates back to its arguments, with no effect on the state,
    and each result was sent as valid UTF-8, the report is the first line with the number of calls
    and, for each call in order, the identity, the text of its
    arguments and the bytes of its result. *)
Theorem replay_after_recorded_calls `{Builtins} (c : CacheObject) (qualname : string)
    (method : Call -> M Py PyVal) (calls : list (N * Call)) (s0 s : Py)
    (outs : list PyVal) :
  (forall c s k,
     k = qualname +:+ ":inputs" \/ k = qualname +:+ ":outputs" ->
     db (redis (method c s).1) !! k = db (redis s) !! k) ->
  db (redis s0) !! (qualname +:+ ":inputs") = None ->
  db (redis s0) !! (qualname +:+ ":outputs") = None ->
  run_returning (call_history qualname method) calls s0 = Some (s, outs) ->
  Forall (fun c => evaluates (serialized c) (PyTuple (args c))) calls.*2 ->
  Forall (fun out => forall b, encode out = Some b -> utf8_valid b = true) outs ->
  exists bs : list string,
    Forall2 (fun out b => encode out = Some b) outs bs
    /\ replay (Some c) qualname s
       = (MkPy (redis s)
            (stdout s ++ header qualname (length calls)
               :: zip_with (fun c b => qualname +:+ serialized c +:+ " -> " +:+ b)
                    calls.*2 bs),
          Return tt).
Proof.
  intros Hframe Hin Hout Hrun Hev Hutf.
  destruct (run_call_history qualname method Hframe calls s0 s outs [] [] Hin Hout Hrun)
    as (bs & F & Li & Lo).
  cbn [app] in Li, Lo. exists bs. split; [exact F|].
  apply logged_log in Li, Lo.
  assert (Forall2 evaluates (map serialized calls.*2) (map (fun c => PyTuple (args c)) calls.*2))
    as Fe.
  { clear -Hev. induction Hev; cbn; constructor; auto. }
  assert (Forall (fun o => utf8_valid o = true) bs) as Fo.
  { clear -F Hutf. induction F as [|o b outs bs Eb _ IH]; [constructor|].
    inversion Hutf; subst. constructor; auto. }
  rewrite replay_bound. unfold bind at 1. rewrite (client_lrange_all_log _ _ _ Li).
  unfold bind at 1. rewrite (eval_each_pure _ _ _ Fe).
  unfold bind at 1. rewrite (client_lrange_all_log _ _ _ Lo).
  unfold bind at 1. cbn [print].
  rewrite replay_loop_prints by done. cbn [redis stdout].
  rewrite <- app_assoc, length_map, length_fmap.
  cbn [app]. do 4 f_equal. clear. generalize (calls.*2). intros cs. revert bs.
  induction cs as [|c cs IH]; intros [|b bs]; cbn; try done.
  f_equal. apply IH.
Qed.

Lemma replay_after_recorded_calls_witness :
  exists bs : list string,
    Forall2 (fun out b => encode (H:=sample_builtins) out = Some b) [PyInt 7; PyStr "foo"] bs
    /\ replay (H:=sample_builtins) (Some CacheOnServer) "Cache.echo" sample_history
       = (MkPy (redis sample_history)
            (stdout sample_history ++ header "Cache.echo" (length sample_calls)
               :: zip_with (fun c b => "Cache.echo" +:+ serialized (H:=sample_builtins) c
                                        +:+ " -> " +:+ b)
                    sample_calls.*2 bs),
          Return tt).
Proof.
  apply (replay_after_recorded_calls (H:=sample_builtins) CacheOnServer "Cache.echo" echo_method
           sample_calls fresh_py sample_history [PyInt 7; PyStr "foo"]).
  - intros c s k _. unfold echo_method. by destruct (args c).
  - reflexivity.
  - reflexivity.
  - vm_compute. reflexivity.
  - repeat constructor.
  - repeat constructor; intros b [= <-]; reflexivity.
Defined.

(** ** Further properties of [web.py] *)

Lemma get_page_twice_witness :
  exists s1 s2 : @Web echo_site,
    @get_page echo_site "a" (@fresh_web echo_site 0%nat) = (s1, Return "<html>a</html>")
    /\ @get_page echo_site "a" (wait 10 s1) = (s2, Return "<html>a</html>")
    /\ fetched s2 = ["a"]
    /\ world s2 = 1%nat
    /\ counter (redis_client s2) "count:a" = Some 2.
Proof.
  apply (@get_page_twice echo_site "a" (@fresh_web echo_site 0%nat) 1%nat 3%N 10%N
           "<html>a</html>"); first [reflexivity | discriminate | lia].
Defined.

(** What a call of [get_page] leaves in the store: what [INCR] of the
    count key left, with or without a new entry under the cache key. *)
Lemma get_page_db_shape `{Internet} (url : string) (s : Web) :
  db (redis_client (get_page url s).1) = db (INCR ("count:" +:+ url) (redis_client s)).1
  \/ exists e, db (redis_client (get_page url s).1)
               = <[ "cache:" +:+ url := e ]> (db (INCR ("count:" +:+ url) (redis_client s)).1).
Proof.
  remember (get_page url s) as g eqn:G.
  unfold get_page, cache_and_count_access, bind at 1, web_incr, on_client in G.
  destruct (INCR ("count:" +:+ url) (redis_client s)) as [r1 [z|e]]; cbn [fst];
    [|subst g; by left].
  unfold bind at 1, web_get, bind at 1, on_client, GET in G. cbn [redis_client] in G.
  destruct (live r1 ("cache:" +:+ url)) as [[[b|l] t]|]; cbn [world fetched] in G;
    [| subst g; by left |].
  - unfold bind at 1, lift, decode_utf8 in G.
    destruct (utf8_valid b); [|subst g; by left]. cbn [ret truthy] in G.
    destruct (negb (String.eqb b "")); [subst g; by left|].
    unfold bind at 1, get_page_body in G. cbn [world redis_client fetched] in G.
    destruct (requests_get url (world s)) as [w [dt [page|x]]]; subst g; cbn; [|by left].
    right. by eexists.
  - cbn [ret] in G. unfold bind at 1, get_page_body in G.
    cbn [world redis_client fetched] in G.
    destruct (requests_get url (world s)) as [w [dt [page|x]]]; subst g; cbn; [|by left].
    right. by eexists.
Qed.

(** A call of [get_page], whatever comes of it, leaves every key other
    than the count key and the cache key of its address as it was. *)
Theorem get_page_touches_two_keys `{Internet} (url : string) (s : Web) (k : string) :
  k <> "count:" +:+ url ->
  k <> "cache:" +:+ url ->
  db (redis_client (get_page url s).1) !! k = db (redis_client s) !! k.
Proof.
  intros Hc Hk.
  destruct (get_page_db_shape url s) as [E|[e E]]; rewrite E.
  - by apply INCR_other_keys.
  - rewrite lookup_insert_ne by done. by apply INCR_other_keys.
Qed.

(** The count and the page of another address are not touched. *)
Lemma get_page_touches_two_keys_witness :
  db (redis_client (@get_page echo_site "b"
        (@get_page echo_site "a" (@fresh_web echo_site 0%nat)).1).1) !! "cache:a"
  = db (redis_client (@get_page echo_site "a" (@fresh_web echo_site 0%nat)).1) !! "cache:a".
Proof.
  apply (@get_page_touches_two_keys echo_site "b"
           (@get_page echo_site "a" (@fresh_web echo_site 0%nat)).1 "cache:a"); discriminate.
Defined.

Lemma get_page_counted `{Internet} (url : string) (s : Web) (n : nat) :
  counted (redis_client s) ("count:" +:+ url) n ->
  counted (redis_client (get_page url s).1) ("count:" +:+ url) (S n).
Proof.
  intros C. destruct (counted_INCR _ _ _ C) as (r1 & E & [[[=] _]|D]).
  right. destruct (get_page_db_shape url s) as [X|[e X]]; rewrite X, E; cbn [fst].
  - exact D.
  - rewrite lookup_insert_ne; [exact D|].
    intros Y. symmetry in Y. by apply web_keys_differ in Y.
Qed.

(** The access count of an address that had none stands at [n] after
    [n] calls of [get_page] on it, whatever the time between the calls
    and whatever each call did: served the cached page, fetched, or
    raised. *)
Theorem get_page_counts_accesses `{Internet} (url : string) (waits : list N) (s : Web) :
  live (redis_client s) ("count:" +:+ url) = None ->
  counter (redis_client (run_pages url waits s)) ("count:" +:+ url)
  = Some (Z.of_nat (length waits)).
Proof.
  intros L. apply counted_counter.
  assert (forall (s : Web) (n : nat),
            counted (redis_client s) ("count:" +:+ url) n ->
            counted (redis_client (run_pages url waits s)) ("count:" +:+ url)
              (n + length waits)) as Hrun.
  { induction waits as [|d rest IH]; intros s' n C; cbn [run_pages length].
    - by rewrite Nat.add_0_r.
    - replace (n + S (length rest))%nat with (S n + length rest)%nat by lia.
      apply IH. apply get_page_counted. cbn. by apply counted_elapse. }
  apply (Hrun s 0%nat). left. done.
Qed.

(** With no network, every call raises, and every call is counted. *)
Lemma get_page_counts_accesses_witness :
  counter (redis_client (@run_pages offline "a" [0%N; 5%N; 20%N] (@fresh_web offline 0%nat)))
    "count:a" = Some 3.
Proof.
  apply (@get_page_counts_accesses offline "a" [0%N; 5%N; 20%N] (@fresh_web offline 0%nat)).
  reflexivity.
Defined.

(** When the count key of an address holds a list, [get_page] raises
    the error [WRONGTYPE] of the server; when it holds a text that is
    not an integer, the error that the value is not an integer.  In
    both cases this comes before the cache is looked at: no fetch is
    run and the state is what it was. *)
Theorem get_page_count_refused `{Internet} (url : string) (s : Web) :
  (forall (l : list string) (t : option N),
     live (redis_client s) ("count:" +:+ url) = Some (Entry (RList l) t) ->
     get_page url s = (s, Raise WrongType))
  /\ (forall (b : string) (t : option N),
        live (redis_client s) ("count:" +:+ url) = Some (Entry (RStr b) t) ->
        parse_int b = None ->
        get_page url s = (s, Raise NotAnInteger)).
Proof.
  split.
  - intros l t L. unfold get_page, cache_and_count_access, bind, web_incr, on_client.
    rewrite (INCR_on_list _ _ l t L). by destruct s.
  - intros b t L P. unfold get_page, cache_and_count_access, bind, web_incr, on_client.
    rewrite (INCR_on_text _ _ b t L P). by destruct s.
Qed.

Lemma get_page_count_refused_witness :
  @get_page echo_site "a"
    (@MkWeb echo_site (MkRedis 0 {[ "count:a" := Entry (RList ["x"]) None ]}) 0%nat [])
  = (@MkWeb echo_site (MkRedis 0 {[ "count:a" := Entry (RList ["x"]) None ]}) 0%nat [],
     Raise WrongType).
Proof.
  apply (proj1 (@get_page_count_refused echo_site "a"
                  (@MkWeb echo_site (MkRedis 0 {[ "count:a" := Entry (RList ["x"]) None ]})
                     0%nat []))
           ["x"] None); reflexivity.
Defined.

Lemma counter_defined (r : Redis) (k : string) (e : entry) (n : Z) :
  db r !! k = Some e -> value e = RStr (str_int n) -> exists m, counter r k = Some m.
Proof.
  intros E V. unfold counter, live. rewrite E.
  destruct (expired (clock r) e); [by eexists|].
  destruct e as [v t]. cbn in V. subst v. rewrite parse_str_int. by eexists.
Qed.

(** Serving the cached page does not renew it: the time to live runs
    from the fetch.  After a fetch, a call at most 10 units later is
    served from the cache, and a call more than 10 units after the
    fetch runs the fetch again, however recent the call before it. *)
Theorem get_page_hit_keeps_expiry `{Internet} (url : string) (s : Web) (n : Z)
    (w1 w2 : World) (dt d1 d2 : N) (page : string) (response3 : Response) :
  counter (redis_client s) ("count:" +:+ url) = Some n ->
  live (redis_client s) ("cache:" +:+ url) = None ->
  requests_get url (world s) = (w1, MkResponse dt (Return page)) ->
  requests_get url w1 = (w2, response3) ->
  page <> "" ->
  utf8_valid page = true ->
  (d1 <= 10)%N ->
  (10 < d1 + d2)%N ->
  exists s1 s2 s3 : Web,
    get_page url s = (s1, Return page)
    /\ get_page url (wait d1 s1) = (s2, Return page)
    /\ fetched s2 = fetched s ++ [url]
    /\ db (redis_client s2) !! ("cache:" +:+ url)
       = Some (Entry (RStr page) (Some (clock (redis_client s) + dt + 10)%N))
    /\ get_page url (wait d2 s2) = (s3, text response3)
    /\ fetched s3 = fetched s ++ [url; url].
Proof.
  intros C L Er1 Er3 Hp V Hd1 Hd2.
  destruct (get_page_miss url s n w1 _ C (or_introl L) Er1) as (e1 & V1 & _ & E1).
  rewrite E1. unfold after_miss. cbn [text took].
  set (r := elapse dt (put ("count:" +:+ url) e1 (redis_client s))).
  set (ec := Entry (RStr page) (Some (clock r + 10)%N)).
  set (s1 := MkWeb _ _ _).
  assert (db (redis_client s1) !! ("count:" +:+ url) = Some e1) as D1.
  { cbn. rewrite lookup_insert_ne
      by (intros X; symmetry in X; by apply web_keys_differ in X).
    by rewrite lookup_insert_eq. }
  destruct (counter_defined (redis_client (wait d1 s1)) _ e1 (n + 1) D1 V1) as (m1 & C1).
  assert (live (redis_client (wait d1 s1)) ("cache:" +:+ url) = Some ec) as L1.
  { apply live_fresh; [cbn; by rewrite lookup_insert_eq|].
    cbn. apply N.ltb_ge. lia. }
  destruct (get_page_hit url (wait d1 s1) m1 page _ C1 L1 Hp V) as (e2 & V2 & _ & E2).
  set (s2 := MkWeb _ _ _) in E2.
  assert (db (redis_client s2) !! ("count:" +:+ url) = Some e2) as D2.
  { cbn. by rewrite lookup_insert_eq. }
  assert (db (redis_client s2) !! ("cache:" +:+ url) = Some ec) as Dc.
  { cbn. rewrite lookup_insert_ne by apply web_keys_differ. by rewrite lookup_insert_eq. }
  destruct (counter_defined (redis_client (wait d2 s2)) _ e2 (m1 + 1) D2 V2) as (m2 & C2).
  assert (live (redis_client (wait d2 s2)) ("cache:" +:+ url) = None) as L2.
  { eapply live_expired; [exact Dc|]. cbn. apply N.ltb_lt. lia. }
  destruct (get_page_miss url (wait d2 s2) m2 w2 response3 C2 (or_introl L2) Er3)
    as (e3 & _ & _ & E3).
  destruct (after_miss_facts url (wait d2 s2) e3 w2 response3) as (A1 & A2 & _).
  exists s1, s2, (after_miss url (wait d2 s2) e3 w2 response3).1.
  split; [done|]. split; [exact E2|]. split; [done|]. split; [|split].
  - rewrite Dc. unfold ec. cbn. do 3 f_equal.
  - rewrite E3, <- A1. apply surjective_pairing.
  - rewrite A2. cbn. by rewrite <- app_assoc.
Qed.

(** A fetch at time 0 that takes 3 units, a call 8 units after it and
    a call 4 units after that one. *)
Lemma get_page_hit_keeps_expiry_witness :
  exists s1 s2 s3 : @Web echo_site,
    @get_page echo_site "a" (@fresh_web echo_site 0%nat) = (s1, Return "<html>a</html>")
    /\ @get_page echo_site "a" (wait 8 s1) = (s2, Return "<html>a</html>")
    /\ fetched s2 = ["a"]
    /\ db (redis_client s2) !! "cache:a" = Some (Entry (RStr "<html>a</html>") (Some 13%N))
    /\ @get_page echo_site "a" (wait 4 s2) = (s3, Return "<html>a</html>")
    /\ fetched s3 = ["a"; "a"].
Proof.
  apply (@get_page_hit_keeps_expiry echo_site "a" (@fresh_web echo_site 0%nat) 0
           1%nat 2%nat 3%N 8%N 4%N "<html>a</html>" (MkResponse 3 (Return "<html>a</html>")));
    first [reflexivity | discriminate | lia].
Defined.

(** ** Further properties of the keys *)

Lemma str_uuid_unhyphen (u : N) : unhyphen (str_uuid u) = hex_digits 32 u.
Proof. unfold unhyphen, str_uuid. cbn [hex_digits substring String.append]. reflexivity. Qed.

Lemma nibble_lt (n : N) (k : nat) : (nibble n k < 16)%N.
Proof.
  unfold nibble. change 15%N with (N.ones 4). rewrite N.land_ones.
  apply N.mod_lt. discriminate.
Qed.

Lemma hex_digit_inj (d d' : N) :
  (d < 16)%N -> (d' < 16)%N -> hex_digit d = hex_digit d' -> d = d'.
Proof.
  intros Hd Hd'.
  destruct d as [|p]; [|do 4 (try destruct p as [p|p|]); try lia];
    (destruct d' as [|p']; [|do 4 (try destruct p' as [p'|p'|]); try lia]);
    cbn; intros E; first [reflexivity | discriminate E].
Qed.

Lemma hex_digits_nibbles (k : nat) (u u' : N) :
  hex_digits k u = hex_digits k u' ->
  forall j : nat, (j < k)%nat -> nibble u j = nibble u' j.
Proof.
  induction k as [|k IH]; intros E j Hj; [lia|].
  cbn [hex_digits] in E. injection E as Ec Er.
  destruct (decide (j = k)) as [->|Hne].
  - apply hex_digit_inj; [apply nibble_lt | apply nibble_lt | exact Ec].
  - apply IH; [exact Er | lia].
Qed.

Lemma nibble_testbit (n : N) (k : nat) (j : N) :
  (j < 4)%N -> N.testbit (nibble n k) j = N.testbit n (4 * N.of_nat k + j).
Proof.
  intros Hj. unfold nibble. rewrite N.land_spec, N.shiftr_spec by lia.
  change 15%N with (N.ones 4). rewrite N.ones_spec_low by lia.
  rewrite andb_true_r. f_equal. lia.
Qed.

Lemma nibbles_low_bits (u u' : N) (k : nat) :
  (forall j : nat, (j < k)%nat -> nibble u j = nibble u' j) ->
  forall i : N, (i < 4 * N.of_nat k)%N -> N.testbit u i = N.testbit u' i.
Proof.
  intros Hn i Hi.
  assert (i = 4 * N.of_nat (N.to_nat (i / 4)) + i mod 4)%N as Ei.
  { rewrite N2Nat.id. apply N.div_mod. discriminate. }
  assert (i mod 4 < 4)%N as Hm by (apply N.mod_lt; discriminate).
  rewrite Ei, <- !nibble_testbit by exact Hm.
  rewrite Hn; [done|].
  assert (i / 4 < N.of_nat k)%N by (apply N.Div0.div_lt_upper_bound; lia).
  lia.
Qed.

Lemma testbit_above (n x i : N) : (x < 2 ^ n)%N -> (n <= i)%N -> N.testbit x i = false.
Proof.
  intros Hx Hi. rewrite <- (N.mod_small x (2 ^ n)) by exact Hx.
  by apply N.mod_pow2_bits_high.
Qed.

Lemma str_uuid_inj (u u' : N) :
  (u < 2 ^ 128)%N -> (u' < 2 ^ 128)%N -> str_uuid u = str_uuid u' -> u = u'.
Proof.
  intros Hu Hu' E.
  assert (hex_digits 32 u = hex_digits 32 u') as Eh.
  { rewrite <- !str_uuid_unhyphen. by rewrite E. }
  apply N.bits_inj. intros i.
  destruct (N.lt_ge_cases i 128) as [Hi|Hi].
  - apply (nibbles_low_bits u u' 32 (hex_digits_nibbles 32 u u' Eh)). exact Hi.
  - by rewrite (testbit_above 128 u i), (testbit_above 128 u' i).
Qed.

Lemma uuid4_lt (rnd : N) : (uuid4 rnd < 2 ^ 128)%N.
Proof.
  assert (uuid4 rnd mod 2 ^ 128 = uuid4 rnd)%N as E.
  { apply N.bits_inj. intros i.
    destruct (N.lt_ge_cases i 128) as [Hi|Hi].
    - by apply N.mod_pow2_bits_low.
    - rewrite N.mod_pow2_bits_high by exact Hi. symmetry.
      unfold uuid4. cbv zeta.
      repeat first [rewrite N.lor_spec | rewrite N.ldiff_spec | rewrite N.land_spec].
      rewrite N.ones_spec_high by exact Hi.
      rewrite (testbit_above 128 (N.shiftl 32768 48) i) by (done || (vm_compute; reflexivity)).
      rewrite (testbit_above 128 (N.shiftl 4 76) i) by (done || (vm_compute; reflexivity)).
      by rewrite andb_false_r. }
  rewrite <- E. apply N.mod_lt. discriminate.
Qed.

(** Two calls of [store] return the same key only when the UUIDs made
    from their random bytes are the same: the text of a UUID tells the
    UUID. *)
Theorem store_keys_differ (rnd rnd' : N) :
  uuid4 rnd <> uuid4 rnd' -> str_uuid (uuid4 rnd) <> str_uuid (uuid4 rnd').
Proof.
  intros Hne E. apply Hne.
  apply str_uuid_inj; [apply uuid4_lt | apply uuid4_lt | exact E].
Qed.

Lemma store_keys_differ_witness : str_uuid (uuid4 0) <> str_uuid (uuid4 1).
Proof. apply store_keys_differ. discriminate. Defined.

Lemma uuid4_version_nibble (rnd : N) : nibble (uuid4 rnd) 19 = 4%N.
Proof.
  apply N.bits_inj. intros j.
  destruct (N.lt_ge_cases j 4) as [Hj|Hj].
  - rewrite nibble_testbit by exact Hj.
    unfold uuid4. cbv zeta. rewrite N.lor_spec, N.ldiff_spec.
    assert (j = 0 \/ j = 1 \/ j = 2 \/ j = 3)%N as Hcases by lia.
    destruct Hcases as [-> | [-> | [-> | ->]]].
    all: match goal with
         | |- (_ && negb ?m || ?v)%bool = ?w =>
             replace m with true by (vm_compute; reflexivity);
             replace v with w by (vm_compute; reflexivity)
         end.
    all: cbn [negb]; rewrite andb_false_r; reflexivity.
  - rewrite (testbit_above 4 (nibble (uuid4 rnd) 19) j) by (exact Hj || apply nibble_lt).
    by rewrite (testbit_above 4 4 j).
Qed.

(** The key [store] makes is 36 characters long, with hyphens after
    the characters 8, 12, 16 and 20 of the 32 hexadecimal digits, and
    the first digit of the third group is the version, 4. *)
Theorem store_key_format (rnd : N) :
  String.length (str_uuid (uuid4 rnd)) = 36%nat
  /\ String.get 8 (str_uuid (uuid4 rnd)) = Some "-"%char
  /\ String.get 13 (str_uuid (uuid4 rnd)) = Some "-"%char
  /\ String.get 18 (str_uuid (uuid4 rnd)) = Some "-"%char
  /\ String.get 23 (str_uuid (uuid4 rnd)) = Some "-"%char
  /\ String.get 14 (str_uuid (uuid4 rnd)) = Some "4"%char.
Proof.
  unfold str_uuid.
  cbn [hex_digits substring String.append String.length String.get].
  repeat split.
  fold (nibble (uuid4 rnd) 19). by rewrite uuid4_version_nibble.
Qed.

Lemma store_spec `{Builtins} (c : StoreCall) (s : Py) (b : string) (n : Z) :
  encode (data c) = Some b ->
  counter (redis s) "Cache.store" = Some n ->
  exists e : entry,
    value e = RStr (str_int (n + 1))
    /\ store c s
       = (MkPy (put (str_uuid (uuid4 (random c))) (Entry (RStr b) None)
                  (put "Cache.store" e (redis s))) (stdout s),
          Return (str_uuid (uuid4 (random c)))).
Proof.
  intros Eb C. destruct (INCR_spec _ _ _ C) as (e & E & V & _ & _).
  exists e. split; [exact V|].
  unfold store, count_calls, bind at 1, client_incr, on_redis. rewrite E.
  unfold store_body, bind. by rewrite (client_set_eq _ _ b).
Qed.

(** A later [store] under another UUID leaves what was stored before
    in place: both values are read back, each under its key, at any
    later time. *)
Theorem store_keeps_earlier_values `{Builtins} (c1 c2 : StoreCall) (s : Py)
    (b1 b2 : string) (n : Z) (d1 d2 : N) :
  encode (data c1) = Some b1 ->
  encode (data c2) = Some b2 ->
  counter (redis s) "Cache.store" = Some n ->
  uuid4 (random c1) <> uuid4 (random c2) ->
  exists (s1 s2 : Py) (key1 key2 : string),
    store c1 s = (s1, Return key1)
    /\ store c2 (MkPy (elapse d1 (redis s1)) (stdout s1)) = (s2, Return key2)
    /\ key1 <> key2
    /\ get key1 None (MkPy (elapse d2 (redis s2)) (stdout s2))
       = (MkPy (elapse d2 (redis s2)) (stdout s2), Return (PyBytes b1))
    /\ get key2 None (MkPy (elapse d2 (redis s2)) (stdout s2))
       = (MkPy (elapse d2 (redis s2)) (stdout s2), Return (PyBytes b2)).
Proof.
  intros E1 E2 C Hne.
  assert (str_uuid (uuid4 (random c1)) <> str_uuid (uuid4 (random c2))) as Hk.
  { intros X. apply Hne. apply str_uuid_inj; [apply uuid4_lt | apply uuid4_lt | exact X]. }
  destruct (store_spec c1 s b1 n E1 C) as (e1 & V1 & S1).
  set (s1 := MkPy _ _) in S1.
  assert (db (redis s1) !! "Cache.store" = Some e1) as D1.
  { cbn. rewrite lookup_insert_ne by apply str_uuid_not_Cache. by rewrite lookup_insert_eq. }
  destruct (counter_defined (elapse d1 (redis s1)) _ e1 (n + 1) D1 V1) as (m & C1).
  destruct (store_spec c2 (MkPy (elapse d1 (redis s1)) (stdout s1)) b2 m E2 C1)
    as (e2 & V2 & S2).
  set (s2 := MkPy (put _ _ _) _) in S2.
  exists s1, s2, (str_uuid (uuid4 (random c1))), (str_uuid (uuid4 (random c2))).
  split; [exact S1|]. split; [exact S2|]. split; [exact Hk|]. split.
  - apply (get_raw _ b1 None). apply live_no_ttl. cbn.
    rewrite lookup_insert_ne by (intros X; by symmetry in X).
    rewrite lookup_insert_ne by (intros X; symmetry in X; by apply str_uuid_not_Cache in X).
    by rewrite lookup_insert_eq.
  - apply (get_raw _ b2 None). apply live_no_ttl. cbn. by rewrite lookup_insert_eq.
Qed.

Lemma store_keeps_earlier_values_witness :
  exists (s1 s2 : Py) (key1 key2 : string),
    store (H:=sample_builtins) (MkStoreCall 0 (PyStr "first")) fresh_py = (s1, Return key1)
    /\ store (H:=sample_builtins) (MkStoreCall 1 (PyInt 2))
         (MkPy (elapse 5 (redis s1)) (stdout s1)) = (s2, Return key2)
    /\ key1 <> key2
    /\ get key1 None (MkPy (elapse 7 (redis s2)) (stdout s2))
       = (MkPy (elapse 7 (redis s2)) (stdout s2), Return (PyBytes "first"))
    /\ get key2 None (MkPy (elapse 7 (redis s2)) (stdout s2))
       = (MkPy (elapse 7 (redis s2)) (stdout s2), Return (PyBytes "2")).
Proof.
  apply (store_keeps_earlier_values (H:=sample_builtins) (MkStoreCall 0 (PyStr "first"))
           (MkStoreCall 1 (PyInt 2)) fresh_py "first" "2" 0 5 7);
    first [reflexivity | discriminate].
Defined.
